(** * carbon-trace-server: the order repository and the AI proxy of [server.js]

    A shallow embedding of the request handlers of [src/server.js] and the
    properties of its specification.

    - [Js]      : the JSON documents the handlers build and send.
    - [Storage] : the two tables and the SQL statements the handlers issue.
    - [Orders]  : the five handlers under [/api/orders].
    - [Binary64]: the arithmetic behind [Math.random() * 5 + 0.5] and
                  [toFixed(2)]; [JsonNumbers]: numbers in SQLite's JSON.
    - [Prompts] : the handler of [/api/prompts].

    The properties follow the definitions: [JsFacts], [Binary64Facts] and
    [PromptsFacts] for the AI proxy, [TimestampOrder], [SortFacts] and
    [OrdersFacts] for the order repository.

    Each handler is one atomic step on the store: the statements of one
    request run in the order the callbacks chain them ([db.serialize]), and the
    interleaving of several requests is not modelled. *)

From Stdlib Require Import ZArith List String Ascii Bool Lia QArith DecimalString.
From Stdlib Require Import Permutation Sorted OrdersEx.
Import ListNotations.

Set Warnings "-register-all".
Local Open Scope string_scope.
Local Open Scope Z_scope.

(** ** JSON documents *)

Module Js.

(** A JavaScript value as far as the handlers build one. [VUndefined] is the
    value of [row] when [db.get] finds no row; [res.json] leaves a property
    holding it out of the text it sends. A number is the rational it denotes:
    the handlers only carry numbers from the request to the store and back. *)
Inductive value : Type :=
  | VUndefined
  | VNull
  | VNum (q : Q)
  | VStr (s : string)
  | VArr (l : list value)
  | VObj (fields : list (string * value)).

Definition VInt (z : Z) : value := VNum (inject_Z z).

(** [obj[k]] *)
Fixpoint get_field (k : string) (fields : list (string * value)) : option value :=
  match fields with
  | [] => None
  | (k', v) :: rest => if String.eqb k k' then Some v else get_field k rest
  end.

Definition field (k : string) (v : value) : option value :=
  match v with
  | VObj fields => get_field k fields
  | _ => None
  end.

(** [{...obj, k: v}]: the property keeps its place when [obj] has it, and is
    added last otherwise. *)
Fixpoint set_field (k : string) (v : value) (fields : list (string * value))
  : list (string * value) :=
  match fields with
  | [] => [(k, v)]
  | (k', v') :: rest =>
      if String.eqb k k' then (k, v) :: rest else (k', v') :: set_field k v rest
  end.

Definition spread_with (k : string) (v : value) (obj : value) : value :=
  match obj with
  | VObj fields => VObj (set_field k v fields)
  | _ => VObj [(k, v)]
  end.

(** What [res.status(c).json(v)] sends. *)
Record response : Type := mk_response {
  status : Z;
  body : value
}.

(** [s.includes(sub)] *)
Fixpoint includes (s sub : string) : bool :=
  if String.prefix sub s then true
  else match s with
       | EmptyString => false
       | String _ s' => includes s' sub
       end.

End Js.

(** ** Number arithmetic *)

Module Binary64.

(** Every finite binary64 number is an integer multiple of [2^-1074]. A
    non-negative Number [x] is represented by the integer [x * 2^1074];
    the handler computes with numbers between 0 and 5.5, and neither
    negative numbers nor infinities are represented. *)
Definition scale : Z := 2 ^ 1074.

(** The integer nearest to [a / b], ties to even ([0 <= a], [0 < b]). *)
Definition nearest_even (a b : Z) : Z :=
  let q := a / b in
  let r := a mod b in
  if 2 * r <? b then q
  else if b <? 2 * r then q + 1
  else if Z.even q then q else q + 1.

(** The binary64 nearest to the rational [a / b] (in units of [2^-1074]):
    below [2^53] units every integer is a binary64 (subnormals and the first
    binade), above that a number keeps 53 significant bits. *)
Definition round64 (a b : Z) : Z :=
  let q := a / b in
  if q <? 2 ^ 53 then nearest_even a b
  else
    let s := Z.log2 q - 52 in
    nearest_even a (b * 2 ^ s) * 2 ^ s.

(** The integers that represent a binary64. *)
Definition is_binary64 (c : Z) : bool :=
  (0 <=? c) && ((c <? 2 ^ 53) || (c mod 2 ^ (Z.log2 c - 52) =? 0)).

(** [x * y] and [x + y] *)
Definition mul (x y : Z) : Z := round64 (x * y) scale.
Definition add (x y : Z) : Z := round64 (x + y) 1.

(** The literals [5], [0.5] and [5.5]. *)
Definition five : Z := 5 * scale.
Definition half : Z := 2 ^ 1073.
Definition five_and_half : Z := 11 * 2 ^ 1073.

(** [Math.random()] yields a Number that is at least 0 and less than 1. *)
Definition is_random (r : Z) : Prop := 0 <= r < scale.

(** [Number.prototype.toFixed(f)] for [x < 10^21]: with [n] the integer for
    which [n / 10^f - x] is nearest to zero (the larger one of two), the
    digits of [n], padded with zeros to [f + 1] digits, with a point before
    the last [f]. *)
Fixpoint zeros (k : nat) : string :=
  match k with
  | O => ""
  | S k' => String "0" (zeros k')
  end.

Definition digits (n : Z) : string :=
  NilZero.string_of_uint (N.to_uint (Z.to_N n)).

Definition nearest_scaled (f : nat) (x : Z) : Z :=
  (2 * 10 ^ Z.of_nat f * x + scale) / (2 * scale).

Definition place_point (f : nat) (n : Z) : string :=
  let m := digits n in
  let m := if (String.length m <=? f)%nat
           then zeros (f + 1 - String.length m) ++ m else m in
  let k := String.length m in
  match f with
  | O => m
  | _ => substring 0 (k - f) m ++ "." ++ substring (k - f) f m
  end.

Definition toFixed (f : nat) (x : Z) : string :=
  place_point f (nearest_scaled f x).

(** [parseFloat(s)] for the literals [toFixed] writes: digits, then possibly
    a point and more digits. [None] is [NaN]. Signs, exponents, leading blanks
    and [Infinity] are not read. *)
Definition digit_of (c : ascii) : option Z :=
  let n := Z.of_nat (nat_of_ascii c) in
  if (48 <=? n) && (n <=? 57) then Some (n - 48) else None.

(** The digits at the head of [s]: their value continuing [acc], how many
    there are, and the rest of [s]. *)
Fixpoint read_digits (s : string) (acc : Z) (count : nat) : Z * nat * string :=
  match s with
  | EmptyString => (acc, count, s)
  | String c rest =>
      match digit_of c with
      | Some d => read_digits rest (10 * acc + d) (S count)
      | None => (acc, count, s)
      end
  end.

(** The decimal literal at the head of [s]: [(v, k)] stands for [v / 10^k]. *)
Definition read_decimal (s : string) : option (Z * nat) :=
  let '(ip, ni, rest) := read_digits s 0 0 in
  match rest with
  | String "." rest' =>
      let '(v, nf, _) := read_digits rest' ip 0 in
      match (ni + nf)%nat with
      | O => None
      | _ => Some (v, nf)
      end
  | _ =>
      match ni with
      | O => None
      | _ => Some (ip, O)
      end
  end.

Definition parseFloat (s : string) : option Z :=
  match read_decimal s with
  | Some (v, k) => Some (round64 (v * scale) (10 ^ Z.of_nat k))
  | None => None
  end.

(** [read_decimal] finds [n / 100] in what [toFixed(2)] writes for [n]
    hundredths; [hundredths] are the [n] from 50 to 550. *)
Definition reads_back (n : Z) : bool :=
  match read_decimal (place_point 2 n) with
  | Some (v, k) => (v =? n) && (k =? 2)%nat
  | None => false
  end.

Definition hundredths : list Z := map Z.of_nat (seq 50 501).

End Binary64.

(** ** Numbers in SQLite's JSON *)

Module JsonNumbers.
Import Binary64.

(** The binary64 nearest to the rational [x], as a rational in lowest terms
    (the rationals of this size are far from the largest binary64). *)
Definition nearest_binary64 (x : Q) : Q :=
  let k := round64 (Z.abs (Qnum x) * scale) (Zpos (Qden x)) in
  Qred (Qmake (Z.sgn (Qnum x) * k) (Z.to_pos scale)).

(** [10^e <= a / b], for positive [a] and [b]. *)
Definition pow10_le (e a b : Z) : bool :=
  if 0 <=? e then 10 ^ e * b <=? a else b <=? a * 10 ^ (- e).

(** The decimal exponent of [a / b]: the [e] with [10^e <= a / b < 10^(e+1)],
    sought next to the estimate the binary logarithms give. *)
Definition decimal_exponent (a b : Z) : Z :=
  let e1 := ((Z.log2 a - Z.log2 b - 1) * 30103) / 100000 in
  if pow10_le (e1 + 2) a b then e1 + 2
  else if pow10_le (e1 + 1) a b then e1 + 1
  else if pow10_le e1 a b then e1
  else e1 - 1.

Definition round_half_up (a b : Z) : Z := (2 * a + b) / (2 * b).

(** [x] with 15 significant decimal digits, the way SQLite writes a REAL in
    JSON ([%!.15g]). *)
Definition to_15_digits (x : Q) : Q :=
  let a := Z.abs (Qnum x) in
  let b := Zpos (Qden x) in
  if a =? 0 then 0%Q
  else
    let e := decimal_exponent a b - 14 in
    if 0 <=? e
    then inject_Z (Z.sgn (Qnum x) * round_half_up a (b * 10 ^ e) * 10 ^ e)
    else Qmake (Z.sgn (Qnum x) * round_half_up (a * 10 ^ (- e)) b)
               (Z.to_pos (10 ^ (- e))).

(** What [JSON.parse] reads from what [json_object] writes for a REAL. *)
Definition json_real (x : Q) : Q := nearest_binary64 (to_15_digits x).

(** The same for the INTEGER column [quantity]: a whole number inside the
    64-bit range is stored as INTEGER and written in full, and [JSON.parse]
    reads the binary64 nearest to it; any other stays a REAL. *)
Definition json_quantity (z : Z) : Q :=
  if (- 2 ^ 63 <? z) && (z <? 2 ^ 63 - 1) then nearest_binary64 (inject_Z z)
  else json_real (inject_Z z).

End JsonNumbers.

(** ** The store *)

Module Storage.
Import Js JsonNumbers.

(** A row of [orders]. [timestamp] is the text [CURRENT_TIMESTAMP] gave when
    the row was inserted ([YYYY-MM-DD HH:MM:SS]); SQLite compares it as text. *)
Record order_row : Type := mk_order {
  o_id : Z;
  o_customerName : string;
  o_totalPrice : Q;
  o_totalCarbonSaved : Q;
  o_timestamp : string
}.

(** A row of [order_items]. *)
Record item_row : Type := mk_item {
  i_id : Z;
  i_orderId : Z;
  i_itemName : string;
  i_unitPrice : Q;
  i_quantity : Z;
  i_carbonSaved : Q
}.

(** The database file: both tables in rowid order, and for each the largest
    rowid it ever held (the [sqlite_sequence] entry of an [AUTOINCREMENT]
    key). The connection never issues [PRAGMA foreign_keys = ON], so SQLite
    does not check the [REFERENCES orders (id)] clause of [order_items]. *)
Record db : Type := mk_db {
  orders : list order_row;
  order_items : list item_row;
  orders_seq : Z;
  items_seq : Z
}.

Definition empty_db : db := mk_db [] [] 0 0.

(** An item of a request body: [{itemName, unitPrice, quantity, carbonSaved}]. *)
Record item_in : Type := mk_item_in {
  itemName : string;
  unitPrice : Q;
  quantity : Z;
  carbonSaved : Q
}.

(** [INSERT INTO orders (customerName, totalPrice, totalCarbonSaved) VALUES (?, ?, ?)];
    the result carries [this.lastID]. *)
Definition insert_order (now : string) (name : string) (price carbon : Q) (s : db)
  : db * Z :=
  let id := orders_seq s + 1 in
  (mk_db (orders s ++ [mk_order id name price carbon now]) (order_items s)
         id (items_seq s),
   id).

(** [INSERT INTO order_items (orderId, itemName, unitPrice, quantity, carbonSaved)
     VALUES (?, ?, ?, ?, ?)] *)
Definition insert_item (orderId : Z) (it : item_in) (s : db) : db :=
  let id := items_seq s + 1 in
  mk_db (orders s)
        (order_items s ++
           [mk_item id orderId (itemName it) (unitPrice it) (quantity it) (carbonSaved it)])
        (orders_seq s) id.

(** [UPDATE orders SET customerName = ?, totalPrice = ?, totalCarbonSaved = ?
     WHERE id = ?]; the result carries [this.changes]. *)
Definition set_scalars (id : Z) (name : string) (price carbon : Q) (o : order_row)
  : order_row :=
  if o_id o =? id then mk_order (o_id o) name price carbon (o_timestamp o) else o.

Definition update_order (id : Z) (name : string) (price carbon : Q) (s : db)
  : db * Z :=
  (mk_db (map (set_scalars id name price carbon) (orders s)) (order_items s)
         (orders_seq s) (items_seq s),
   Z.of_nat (List.length (filter (fun o => o_id o =? id) (orders s)))).

(** [DELETE FROM order_items WHERE orderId = ?] *)
Definition delete_items (id : Z) (s : db) : db :=
  mk_db (orders s) (filter (fun i => negb (i_orderId i =? id)) (order_items s))
        (orders_seq s) (items_seq s).

(** [DELETE FROM orders WHERE id = ?]; the result carries [this.changes]. *)
Definition delete_order (id : Z) (s : db) : db * Z :=
  (mk_db (filter (fun o => negb (o_id o =? id)) (orders s)) (order_items s)
         (orders_seq s) (items_seq s),
   Z.of_nat (List.length (filter (fun o => o_id o =? id) (orders s)))).

(** *** The two [SELECT]s *)

(** [orders o LEFT JOIN order_items oi ON o.id = oi.orderId], for one row
    of [orders]: the matching rows of [order_items], or a single row whose
    [oi] columns are all [NULL] when there is none. *)
Definition items_of (id : Z) (s : db) : list item_row :=
  filter (fun i => i_orderId i =? id) (order_items s).

Definition left_join (o : order_row) (s : db) : list (option item_row) :=
  match items_of (o_id o) s with
  | [] => [None]
  | matching => map Some matching
  end.

(** [json_object('id', oi.id, 'itemName', oi.itemName, 'unitPrice', oi.unitPrice,
                 'quantity', oi.quantity, 'carbonSaved', oi.carbonSaved)], as
    the document [JSON.parse] reads from the text: a REAL comes back with 15
    significant digits. *)
Definition json_object (oi : option item_row) : value :=
  match oi with
  | Some i =>
      VObj [("id", VInt (i_id i)); ("itemName", VStr (i_itemName i));
            ("unitPrice", VNum (json_real (i_unitPrice i)));
            ("quantity", VNum (json_quantity (i_quantity i)));
            ("carbonSaved", VNum (json_real (i_carbonSaved i)))]
  | None =>
      VObj [("id", VNull); ("itemName", VNull); ("unitPrice", VNull);
            ("quantity", VNull); ("carbonSaved", VNull)]
  end.

(** [json_group_array] over the joined rows of one group. The JSON text it
    yields is represented by the document that text denotes. *)
Definition json_group_array (l : list value) : value := VArr l.

(** One result row of [SELECT o.*, json_group_array(...) as items ... WHERE o.id = ?
    GROUP BY o.id]: [id] is the primary key, so a group is one row of
    [orders]; with the one order row picked by its key, [order_items] is read
    in rowid order. *)
Definition select_row (s : db) (o : order_row) : value :=
  VObj [("id", VInt (o_id o)); ("customerName", VStr (o_customerName o));
        ("totalPrice", VNum (o_totalPrice o));
        ("totalCarbonSaved", VNum (o_totalCarbonSaved o));
        ("timestamp", VStr (o_timestamp o));
        ("items", json_group_array (map json_object (left_join o s)))].

(** [ORDER BY o.timestamp DESC]: SQLite's sorter keeps rows with equal keys in
    the order they reach it, here the rowid order of the [GROUP BY] scan.
    [insert_desc o l] puts [o], which precedes the rows of [l] in the scan,
    in front of the first row that is not later than [o]. *)
Fixpoint insert_desc (o : order_row) (l : list order_row) : list order_row :=
  match l with
  | [] => [o]
  | x :: rest =>
      if String.leb (o_timestamp x) (o_timestamp o) then o :: x :: rest
      else x :: insert_desc o rest
  end.

Definition order_by_timestamp_desc (l : list order_row) : list order_row :=
  fold_right insert_desc [] l.

(** [a] may stand before [b] in the listing: [a] is not older than [b]. *)
Definition newer_first (a b : order_row) : Prop :=
  String.leb (o_timestamp b) (o_timestamp a) = true.

(** Without [WHERE], SQLite joins through an automatic index on
    [order_items]: its key is [orderId], then the other columns the query reads
    ([itemName], [unitPrice], [quantity], [carbonSaved]), then the rowid. The
    items of an order reach [json_group_array] in the order of that key. *)
Definition index_compare (i j : item_row) : comparison :=
  match String.compare (i_itemName i) (i_itemName j) with
  | Eq =>
      match Qcompare (i_unitPrice i) (i_unitPrice j) with
      | Eq =>
          match Z.compare (i_quantity i) (i_quantity j) with
          | Eq =>
              match Qcompare (i_carbonSaved i) (i_carbonSaved j) with
              | Eq => Z.compare (i_id i) (i_id j)
              | c => c
              end
          | c => c
          end
      | c => c
      end
  | c => c
  end.

Fixpoint index_insert (i : item_row) (l : list item_row) : list item_row :=
  match l with
  | [] => [i]
  | j :: rest =>
      match index_compare i j with
      | Gt => j :: index_insert i rest
      | _ => i :: j :: rest
      end
  end.

Definition index_order (l : list item_row) : list item_row :=
  fold_right index_insert [] l.

Definition left_join_indexed (o : order_row) (s : db) : list (option item_row) :=
  match index_order (items_of (o_id o) s) with
  | [] => [None]
  | matching => map Some matching
  end.

(** One result row of the list query. *)
Definition list_row (s : db) (o : order_row) : value :=
  VObj [("id", VInt (o_id o)); ("customerName", VStr (o_customerName o));
        ("totalPrice", VNum (o_totalPrice o));
        ("totalCarbonSaved", VNum (o_totalCarbonSaved o));
        ("timestamp", VStr (o_timestamp o));
        ("items", json_group_array (map json_object (left_join_indexed o s)))].

(** [db.all] of the list query. *)
Definition select_orders (s : db) : list value :=
  map (list_row s) (order_by_timestamp_desc (orders s)).

(** [db.get] of the same query with [WHERE o.id = ?]: the first row, or
    [undefined]. *)
Definition select_order (id : Z) (s : db) : value :=
  match filter (fun o => o_id o =? id) (orders s) with
  | [] => VUndefined
  | o :: _ => select_row s o
  end.

(** The columns of a row of [order_items] that come from the request. *)
Definition item_fields (i : item_row) : item_in :=
  mk_item_in (i_itemName i) (i_unitPrice i) (i_quantity i) (i_carbonSaved i).

(** The rows that the inserts of [its] for [orderId] add when the largest
    rowid so far is [from]. *)
Fixpoint new_rows (orderId from : Z) (its : list item_in) : list item_row :=
  match its with
  | [] => []
  | it :: rest =>
      mk_item (from + 1) orderId (itemName it) (unitPrice it) (quantity it)
              (carbonSaved it)
        :: new_rows orderId (from + 1) rest
  end.

(** An entry of [items] shows the item row [i]: it has the id and the name
    of the row, and each number of the row that 15 significant digits keep
    (for the quantity: that is stored as INTEGER). *)
Definition shows (i : item_row) (v : value) : Prop :=
  field "id" v = Some (VInt (i_id i))
  /\ field "itemName" v = Some (VStr (i_itemName i))
  /\ (json_real (i_unitPrice i) = i_unitPrice i ->
      field "unitPrice" v = Some (VNum (i_unitPrice i)))
  /\ (json_quantity (i_quantity i) = inject_Z (i_quantity i) ->
      field "quantity" v = Some (VInt (i_quantity i)))
  /\ (json_real (i_carbonSaved i) = i_carbonSaved i ->
      field "carbonSaved" v = Some (VNum (i_carbonSaved i))).

(** An entry of [items] shows the item [it] of a request as supplied. *)
Definition shows_supplied (it : item_in) (v : value) : Prop :=
  field "itemName" v = Some (VStr (itemName it))
  /\ field "unitPrice" v = Some (VNum (unitPrice it))
  /\ field "quantity" v = Some (VInt (quantity it))
  /\ field "carbonSaved" v = Some (VNum (carbonSaved it)).

(** The numbers of [it] come back from SQLite's JSON as they are. *)
Definition numbers_kept (it : item_in) : Prop :=
  json_real (unitPrice it) = unitPrice it
  /\ json_quantity (quantity it) = inject_Z (quantity it)
  /\ json_real (carbonSaved it) = carbonSaved it.

(** No row of [orders] has an id beyond the largest one handed out. *)
Definition ids_bounded (s : db) : Prop :=
  forall o, In o (orders s) -> o_id o <= orders_seq s.

End Storage.

(** ** The handlers under [/api/orders] *)

Module Orders.
Import Js Storage.

(** What the storage layer reports for one statement: [None] when it runs,
    [Some m] when it fails with [err.message = m]. A statement that fails
    leaves the tables as they were. *)
Definition fault : Type := option string.

(** A handler ends by sending a response, or, when a [stmt.run] fails, with
    the error emitted on the statement: those calls pass no callback, so no
    code of the handler sees the error; what the client then receives is not
    modelled. *)
Inductive outcome : Type :=
  | Responded (r : response)
  | Unhandled (message : string).

(** [res.json(v)] and [res.status(c).json(v)] *)
Definition json (v : value) : outcome := Responded (mk_response 200 v).
Definition status_json (c : Z) (v : value) : outcome := Responded (mk_response c v).

Definition error_body (m : string) : value := VObj [("error", VStr m)].

(** The body of [POST] and [PUT]:
    [{customerName, items, totalPrice, totalCarbonSaved}]. *)
Record order_body : Type := mk_body {
  customerName : string;
  items : list item_in;
  totalPrice : Q;
  totalCarbonSaved : Q
}.

Definition item_value (it : item_in) : value :=
  VObj [("itemName", VStr (itemName it)); ("unitPrice", VNum (unitPrice it));
        ("quantity", VInt (quantity it)); ("carbonSaved", VNum (carbonSaved it))].

(** [JSON.parse(row.items)]: the text is represented by its document. *)
Definition JSON_parse (text : value) : value := text.

(** [{...row, items: JSON.parse(row.items)}]; every row of the two queries
    has the column [items]. *)
Definition parse_items (row : value) : value :=
  match field "items" row with
  | Some text => spread_with "items" (JSON_parse text) row
  | None => row
  end.

(** [GET /api/orders] *)
Definition list_orders (f : fault) (s : db) : db * outcome :=
  match f with
  | Some m => (s, status_json 500 (error_body m))
  | None =>
      (s, json (VObj [("message", VStr "success");
                      ("data", VArr (map parse_items (select_orders s)))]))
  end.

(** [items.forEach(item => stmt.run([orderId, ...]))]: one insert per item, in
    order; [faults] gives the fault of each, none when the list runs out.
    [forEach] has queued every insert before the first one runs: an insert that
    fails stores nothing, and the inserts after it still run. The result
    carries the message of the first failure. *)
Fixpoint run_items (orderId : Z) (its : list item_in) (faults : list fault) (s : db)
  : db * option string :=
  match its with
  | [] => (s, None)
  | it :: rest =>
      match hd None faults with
      | Some m => (fst (run_items orderId rest (tl faults) s), Some m)
      | None => run_items orderId rest (tl faults) (insert_item orderId it s)
      end
  end.

Record create_faults : Type := mk_create_faults {
  cf_insert : fault;
  cf_items : list fault;
  cf_finalize : fault
}.

(** [POST /api/orders]. [now] is [CURRENT_TIMESTAMP] at the insert and [iso]
    is [new Date().toISOString()] at the response. *)
Definition create_order (now iso : string) (b : order_body) (f : create_faults) (s : db)
  : db * outcome :=
  match cf_insert f with
  | Some m => (s, status_json 400 (error_body m))
  | None =>
      let (s1, orderId) :=
        insert_order now (customerName b) (totalPrice b) (totalCarbonSaved b) s in
      match run_items orderId (items b) (cf_items f) s1 with
      | (s2, Some m) => (s2, Unhandled m)
      | (s2, None) =>
          match cf_finalize f with
          | Some m => (s2, status_json 400 (error_body m))
          | None =>
              (s2, json (VObj [("message", VStr "success");
                               ("data", VObj [("id", VInt orderId);
                                              ("customerName", VStr (customerName b));
                                              ("totalPrice", VNum (totalPrice b));
                                              ("totalCarbonSaved", VNum (totalCarbonSaved b));
                                              ("items", VArr (map item_value (items b)));
                                              ("timestamp", VStr iso)])]))
          end
      end
  end.

(** [GET /api/orders/:id]. The route parameter is text; SQLite's integer
    affinity turns it into the integer it denotes, which stands for it here. *)
Definition read_order (id : Z) (f : fault) (s : db) : db * outcome :=
  match f with
  | Some m => (s, status_json 400 (error_body m))
  | None =>
      let row := select_order id s in
      let row := match row with VUndefined => row | _ => parse_items row end in
      (s, json (VObj [("message", VStr "success"); ("data", row)]))
  end.

Record update_faults : Type := mk_update_faults {
  uf_update : fault;
  uf_delete : fault;
  uf_items : list fault;
  uf_finalize : fault
}.

(** [PUT /api/orders/:id]. [this.changes] in the last callback is that of the
    [UPDATE]: the two inner callbacks are arrow functions. *)
Definition update_order_items (id : Z) (b : order_body) (f : update_faults) (s : db)
  : db * outcome :=
  match uf_update f with
  | Some m => (s, status_json 400 (error_body m))
  | None =>
      let (s1, changes) :=
        update_order id (customerName b) (totalPrice b) (totalCarbonSaved b) s in
      match uf_delete f with
      | Some m => (s1, status_json 400 (error_body m))
      | None =>
          let s2 := delete_items id s1 in
          match run_items id (items b) (uf_items f) s2 with
          | (s3, Some m) => (s3, Unhandled m)
          | (s3, None) =>
              match uf_finalize f with
              | Some m => (s3, status_json 400 (error_body m))
              | None =>
                  (s3, json (VObj [("message", VStr "success");
                                   ("changes", VInt changes)]))
              end
          end
      end
  end.

Record delete_faults : Type := mk_delete_faults {
  df_items : fault;
  df_order : fault
}.

(** [DELETE /api/orders/:id] *)
Definition remove_order (id : Z) (f : delete_faults) (s : db) : db * outcome :=
  match df_items f with
  | Some m => (s, status_json 400 (error_body m))
  | None =>
      let s1 := delete_items id s in
      match df_order f with
      | Some m => (s1, status_json 400 (error_body m))
      | None =>
          let (s2, changes) := delete_order id s1 in
          (s2, json (VObj [("message", VStr "deleted"); ("changes", VInt changes)]))
      end
  end.

(** *** Requests and reachable stores *)

Inductive request : Type :=
  | GetOrders (f : fault)
  | PostOrder (now iso : string) (b : order_body) (f : create_faults)
  | GetOrder (id : Z) (f : fault)
  | PutOrder (id : Z) (b : order_body) (f : update_faults)
  | DeleteOrder (id : Z) (f : delete_faults).

Definition handle (r : request) (s : db) : db * outcome :=
  match r with
  | GetOrders f => list_orders f s
  | PostOrder now iso b f => create_order now iso b f s
  | GetOrder id f => read_order id f s
  | PutOrder id b f => update_order_items id b f s
  | DeleteOrder id f => remove_order id f s
  end.

(** The stores the server can be in: the empty tables the startup code
    creates, and whatever a request makes of such a store. *)
Inductive reachable : db -> Prop :=
  | reachable_empty : reachable empty_db
  | reachable_step r s : reachable s -> reachable (fst (handle r s)).

(** No storage failure at any statement of a request. *)
Definition no_create_faults : create_faults := mk_create_faults None [] None.
Definition no_update_faults : update_faults := mk_update_faults None None [] None.
Definition no_delete_faults : delete_faults := mk_delete_faults None None.

(** Every row of [order_items] refers to a row of [orders]. *)
Definition has_order (s : db) (id : Z) : bool :=
  existsb (fun o => o_id o =? id) (orders s).

Definition referential_integrity (s : db) : Prop :=
  forall i, In i (order_items s) -> has_order s (i_orderId i) = true.

(** What a response carries in [data], and the rows of a listing. *)
Definition data_of (o : outcome) : option value :=
  match o with
  | Responded r => field "data" (body r)
  | Unhandled _ => None
  end.

Definition listed (o : outcome) : list value :=
  match data_of o with
  | Some (VArr rows) => rows
  | _ => []
  end.

Definition row_id (row : value) : option value := field "id" row.
Definition row_items (row : value) : option value := field "items" row.

(** The item of the specification's example, and bodies with and without it. *)
Definition mug : item_in := mk_item_in "Mug" 10 2 (3 # 2).
Definition alice : order_body := mk_body "Alice" [mug] 20 (3 # 2).
Definition alice_without_items : order_body := mk_body "Alice" [] 0 0.

(** A store with one order of two items, the later one first by name. *)
Definition one_listed : db :=
  mk_db [mk_order 1 "Bob" 30 (5 # 4) "2026-01-01 10:00:00"]
        [mk_item 1 1 "Bottle" 15 1 (1 # 2); mk_item 2 1 "Bag" 5 3 (1 # 4)]
        1 2.

End Orders.

(** ** The handler of [/api/prompts] *)

Module Prompts.
Import Js Binary64.

(** What [generateResponse(prompt)] comes to: the text of the provider, or an
    error thrown with [err.message = m]. *)
Inductive provider_result : Type :=
  | Text (text : string)
  | Throws (message : string).

(** [!process.env.GOOGLE_API_KEY || process.env.GOOGLE_API_KEY === 'your-fallback-key-here']:
    the variable is unset ([None]), empty, or the placeholder. *)
Definition no_valid_key (GOOGLE_API_KEY : option string) : bool :=
  match GOOGLE_API_KEY with
  | None => true
  | Some k => String.eqb k "" || String.eqb k "your-fallback-key-here"
  end.

Definition estimate_marker : string := "Estimate the carbon footprint".
Definition suggestions_marker : string := "suggestions to reduce carbon footprint".

Definition advice : string :=
  "1. Consider choosing more sustainable alternatives. 2. Reduce consumption where possible. 3. Look for locally produced options to reduce transportation emissions.".

Definition apology : string :=
  "I'm unable to provide a response at this time. Please try again later.".

(** [Math.random() * 5 + 0.5] *)
Definition fallbackEstimate (random : Z) : Z := add (mul random five) half.

(** The branch taken when no valid key is configured. *)
Definition fallback_without_key (prompt : string) (random : Z) : response :=
  if includes prompt estimate_marker then
    mk_response 200 (VObj [("response", VStr (toFixed 2 (fallbackEstimate random)))])
  else if includes prompt suggestions_marker then
    mk_response 200 (VObj [("response", VStr advice)])
  else
    mk_response 200 (VObj [("response", VStr apology)]).

(** The [catch] block. *)
Definition fallback_on_error (prompt : string) (random : Z) (message : string)
  : response :=
  if includes prompt estimate_marker then
    mk_response 200 (VObj [("response", VStr (toFixed 2 (fallbackEstimate random)))])
  else if includes prompt suggestions_marker then
    mk_response 200 (VObj [("response", VStr advice)])
  else
    mk_response 500 (VObj [("error", VStr message); ("response", VStr apology)]).

(** [POST /api/prompts]. [random] is what [Math.random()] yields if the
    handler calls it, [provider] what the provider call comes to if the
    handler makes it. *)
Definition prompts (GOOGLE_API_KEY : option string) (prompt : string)
    (random : Z) (provider : provider_result) : response :=
  if no_valid_key GOOGLE_API_KEY then fallback_without_key prompt random
  else
    match provider with
    | Text text => mk_response 200 (VObj [("response", VStr text)])
    | Throws message => fallback_on_error prompt random message
    end.

(** The text a response carries in [response]. *)
Definition response_text (r : response) : option string :=
  match field "response" (body r) with
  | Some (VStr t) => Some t
  | _ => None
  end.

(** The response that carries the numeric estimate. *)
Definition estimate_response (random : Z) : response :=
  mk_response 200 (VObj [("response", VStr (toFixed 2 (fallbackEstimate random)))]).

(** A prompt with both markers. *)
Definition both_markers : string :=
  "Estimate the carbon footprint and give suggestions to reduce carbon footprint".

End Prompts.

(** ** The credential: [/api/health], the provider client, the startup warning *)

Module Health.
Import Js Prompts.

Definition placeholder : string := "your-fallback-key-here".

(** [process.env.GOOGLE_API_KEY || 'your-fallback-key-here']: the key the
    provider client [genAI] is built with. *)
Definition genAI_key (GOOGLE_API_KEY : option string) : string :=
  match GOOGLE_API_KEY with
  | None => placeholder
  | Some k => if String.eqb k "" then placeholder else k
  end.

(** [!!process.env.GOOGLE_API_KEY && process.env.GOOGLE_API_KEY !== 'your-fallback-key-here'] *)
Definition hasApiKey (GOOGLE_API_KEY : option string) : bool :=
  match GOOGLE_API_KEY with
  | None => false
  | Some k => negb (String.eqb k "") && negb (String.eqb k placeholder)
  end.

(** The body of [GET /api/health]: [{status, timestamp, hasApiKey}]. *)
Record health_body : Type := mk_health {
  h_status : string;
  h_timestamp : string;
  h_hasApiKey : bool
}.

(** [GET /api/health]; [iso] is [new Date().toISOString()]. The status is
    the 200 of [res.json]. *)
Definition health (GOOGLE_API_KEY : option string) (iso : string) : Z * health_body :=
  (200, mk_health "OK" iso (hasApiKey GOOGLE_API_KEY)).

(** Whether the callback of [app.listen] writes its two warnings. *)
Definition warns_at_startup (GOOGLE_API_KEY : option string) : bool :=
  match GOOGLE_API_KEY with
  | None => true
  | Some k => String.eqb k "" || String.eqb k placeholder
  end.

End Health.

(** ** The shape of an estimate *)

Module EstimateText.
Import Binary64.

Definition is_digit (c : ascii) : bool :=
  match digit_of c with
  | Some _ => true
  | None => false
  end.

(** A digit from 0 to 5, a point, and two digits. *)
Definition well_shaped (t : string) : bool :=
  match t with
  | String a (String "." (String b (String c EmptyString))) =>
      match digit_of a with
      | Some d => (d <=? 5) && is_digit b && is_digit c
      | None => false
      end
  | _ => false
  end.

Definition hundredths_well_shaped : bool :=
  forallb (fun n => well_shaped (place_point 2 n)) hundredths.

(** [2^-50], in units of [2^-1074]. *)
Definition two_pow_minus_50 : Z := 2 ^ 1024.

End EstimateText.

(** ** Sequences of requests *)

Module Traces.
Import Js Storage Orders.

(** The store after the requests [rs], handled one after the other. *)
Fixpoint run (rs : list request) (s : db) : db :=
  match rs with
  | [] => s
  | r :: rest => run rest (fst (handle r s))
  end.

(** Rowids are handed out once: in both tables the ids are distinct,
    positive, and none is beyond the largest one handed out. *)
Definition well_numbered (s : db) : Prop :=
  NoDup (map o_id (orders s))
  /\ (forall o, In o (orders s) -> 1 <= o_id o <= orders_seq s)
  /\ NoDup (map i_id (order_items s))
  /\ (forall i, In i (order_items s) -> 1 <= i_id i <= items_seq s)
  /\ 0 <= orders_seq s
  /\ 0 <= items_seq s.

(** The [changes] a response carries. *)
Definition changes_of (o : outcome) : option value :=
  match o with
  | Responded r => field "changes" (body r)
  | Unhandled _ => None
  end.

Definition status_of (o : outcome) : option Z :=
  match o with
  | Responded r => Some (status r)
  | Unhandled _ => None
  end.

(** A store with one order and its item, and another request body. *)
Definition one_order : db :=
  fst (create_order "2026-01-01 10:00:00" "2026-01-01T10:00:00.000Z" alice
         no_create_faults empty_db).

(** An update whose first item insert fails. *)
Definition first_item_fails : update_faults :=
  mk_update_faults None None [Some "SQLITE_CONSTRAINT: NOT NULL constraint failed"] None.

Definition bob : order_body :=
  mk_body "Bob" [mk_item_in "Bottle" 15 1 (1 # 2); mk_item_in "Bag" 5 3 (1 # 4)]
          30 (5 # 4).

End Traces.

(** * Properties *)

(** ** [includes] *)

Module JsFacts.
Import Js.

Lemma prefix_app sub s :
  String.prefix sub s = true <-> exists post, s = sub ++ post.
Proof.
  revert s. induction sub as [| c sub IH]; intros s.
  - split; [intros _; exists s; reflexivity | intros _; destruct s; reflexivity].
  - destruct s as [| d s]; cbn.
    + split; [discriminate | intros [post H]; cbn in H; discriminate H].
    + destruct (ascii_dec c d) as [-> | Hne].
      * rewrite IH. split; intros [post H]; exists post.
        -- rewrite H. reflexivity.
        -- cbn in H. injection H as H. exact H.
      * split; [discriminate | intros [post H]; cbn in H; injection H; congruence].
Qed.

(** [includes s sub] holds exactly when [sub] occurs in [s]. *)
Lemma includes_occurs s sub :
  includes s sub = true <-> exists pre post, s = pre ++ sub ++ post.
Proof.
  split.
  - induction s as [| c s IH]; cbn [includes].
    + destruct (String.prefix sub "") eqn:Hp; [| discriminate].
      intros _. apply prefix_app in Hp as [post Hp]. exists "", post. exact Hp.
    + destruct (String.prefix sub (String c s)) eqn:Hp.
      * intros _. apply prefix_app in Hp as [post Hp]. exists "", post. exact Hp.
      * intros H. destruct (IH H) as [pre [post He]].
        exists (String c pre), post. cbn. rewrite He. reflexivity.
  - intros [pre [post He]]. subst s. induction pre as [| c pre IH].
    + cbn [append].
      assert (Hp : String.prefix sub (sub ++ post) = true)
        by (apply prefix_app; exists post; reflexivity).
      destruct (sub ++ post); cbn [includes]; rewrite Hp; reflexivity.
    + cbn [append includes]. rewrite IH. destruct (String.prefix sub _); reflexivity.
Qed.

End JsFacts.

(** ** Rounding to binary64 *)

Module Binary64Facts.
Import Binary64.

Lemma nearest_even_le a b c :
  0 < b -> a <= c * b -> nearest_even a b <= c.
Proof.
  intros Hb Hle. unfold nearest_even.
  pose proof (Z.div_mod a b ltac:(lia)) as Hdm.
  pose proof (Z.mod_pos_bound a b Hb) as Hr.
  assert (Hq : a / b <= c) by (apply Z.div_le_upper_bound; lia).
  destruct (Z.ltb_spec (2 * (a mod b)) b) as [H1 | H1]; [exact Hq |].
  assert (a / b < c) by nia.
  destruct (Z.ltb_spec b (2 * (a mod b))); [lia |].
  destruct (Z.even (a / b)); lia.
Qed.

Lemma nearest_even_ge a b c :
  0 < b -> c * b <= a -> c <= nearest_even a b.
Proof.
  intros Hb Hle. unfold nearest_even.
  assert (Hq : c <= a / b) by (apply Z.div_le_lower_bound; lia).
  destruct (Z.ltb_spec (2 * (a mod b)) b); [exact Hq |].
  destruct (Z.ltb_spec b (2 * (a mod b))); [lia |].
  destruct (Z.even (a / b)); lia.
Qed.

(** A binary64 of at least [2^53] units is a multiple of [2^s] whenever [s]
    is at most its own exponent. *)
Lemma is_binary64_multiple c s :
  is_binary64 c = true -> 2 ^ 53 <= c -> 0 <= s <= Z.log2 c - 52 ->
  exists c', c = c' * 2 ^ s.
Proof.
  unfold is_binary64. intros Hc Hbig Hs.
  apply andb_prop in Hc as [_ Hc]. apply orb_prop in Hc as [Hc | Hc].
  - apply Z.ltb_lt in Hc. lia.
  - apply Z.eqb_eq in Hc.
    remember (Z.log2 c - 52) as t eqn:Ht. clear Ht Hbig.
    exists (c / 2 ^ t * 2 ^ (t - s)).
    rewrite <- Z.mul_assoc, <- Z.pow_add_r by lia.
    replace (t - s + s) with t by lia.
    pose proof (Z.div_mod c (2 ^ t) ltac:(apply Z.pow_nonzero; lia)). lia.
Qed.

(** Rounding does not cross a binary64: an upper bound of [a / b] that is a
    binary64 is an upper bound of [round64 a b], and likewise from below. *)
Lemma round64_le a b c :
  0 <= a -> 0 < b -> is_binary64 c = true -> a <= c * b -> round64 a b <= c.
Proof.
  intros Ha Hb Hc Hle. unfold round64.
  destruct (Z.ltb_spec (a / b) (2 ^ 53)) as [Hsmall | Hbig].
  - apply nearest_even_le; assumption.
  - assert (Hq : a / b <= c) by (apply Z.div_le_upper_bound; lia).
    set (s := Z.log2 (a / b) - 52).
    assert (Hlog : 53 <= Z.log2 (a / b)).
    { apply Z.log2_le_pow2; lia. }
    assert (Hmono : Z.log2 (a / b) <= Z.log2 c) by (apply Z.log2_le_mono; lia).
    destruct (is_binary64_multiple c s Hc) as [c' Hc']; [lia | unfold s; lia |].
    assert (Hp : 0 < 2 ^ s) by (apply Z.pow_pos_nonneg; unfold s; lia).
    assert (nearest_even a (b * 2 ^ s) <= c').
    { apply nearest_even_le; [nia |]. rewrite Hc' in Hle. lia. }
    rewrite Hc'. nia.
Qed.

Lemma round64_ge a b c :
  0 <= a -> 0 < b -> is_binary64 c = true -> c * b <= a -> c <= round64 a b.
Proof.
  intros Ha Hb Hc Hle. unfold round64.
  destruct (Z.ltb_spec (a / b) (2 ^ 53)) as [Hsmall | Hbig].
  - apply nearest_even_ge; assumption.
  - assert (Hq : c <= a / b) by (apply Z.div_le_lower_bound; lia).
    set (L := Z.log2 (a / b)).
    assert (Hlog : 53 <= L) by (apply Z.log2_le_pow2; lia).
    assert (Hqpos : 0 < a / b) by lia.
    destruct (Z.log2_spec (a / b) Hqpos) as [HL _]. fold L in HL.
    assert (Hp : 0 < 2 ^ (L - 52)) by (apply Z.pow_pos_nonneg; lia).
    assert (Hdm : b * (a / b) <= a).
    { pose proof (Z.div_mod a b ltac:(lia)). pose proof (Z.mod_pos_bound a b Hb). lia. }
    assert (Hsplit : 2 ^ L = 2 ^ 52 * 2 ^ (L - 52)).
    { rewrite <- Z.pow_add_r by lia. f_equal. lia. }
    assert (Hlow : 2 ^ 52 <= nearest_even a (b * 2 ^ (L - 52))).
    { apply nearest_even_ge; [nia |]. nia. }
    assert (Hc0 : 0 <= c).
    { unfold is_binary64 in Hc. apply andb_prop in Hc as [Hc _].
      apply Z.leb_le in Hc. exact Hc. }
    destruct (Z_lt_le_dec c (2 ^ L)) as [Hlt | Hge].
    + nia.
    + assert (HcL : Z.log2 c = L).
      { apply Z.le_antisymm.
        - apply Z.log2_le_mono. exact Hq.
        - apply Z.log2_le_pow2; lia. }
      assert (2 ^ 53 <= 2 ^ L) by (apply Z.pow_le_mono_r; lia).
      destruct (is_binary64_multiple c (L - 52) Hc) as [c' Hc']; [lia | lia |].
      assert (c' <= nearest_even a (b * 2 ^ (L - 52))).
      { apply nearest_even_ge; [nia |]. rewrite Hc' in Hq. nia. }
      rewrite Hc'. nia.
Qed.

(** How far rounding moves a value. *)
Lemma nearest_even_error a b :
  0 < b -> 2 * Z.abs (nearest_even a b * b - a) <= b.
Proof.
  intros Hb. unfold nearest_even.
  pose proof (Z.div_mod a b ltac:(lia)) as Hdm.
  pose proof (Z.mod_pos_bound a b Hb) as Hr.
  destruct (Z.ltb_spec (2 * (a mod b)) b); [nia |].
  destruct (Z.ltb_spec b (2 * (a mod b))); [nia |].
  destruct (Z.even (a / b)); nia.
Qed.

(** Rounding a value below [2^e] units moves it by at most [2^(e - 54)] units. *)
Lemma round64_error a b e :
  0 <= a -> 0 < b -> 53 <= e -> a < 2 ^ e * b ->
  2 * Z.abs (round64 a b * b - a) <= b * 2 ^ (e - 53).
Proof.
  intros Ha Hb He Hlt. unfold round64.
  assert (Hp : 1 <= 2 ^ (e - 53)).
  { change 1 with (2 ^ 0). apply Z.pow_le_mono_r; lia. }
  destruct (Z.ltb_spec (a / b) (2 ^ 53)) as [Hsmall | Hbig].
  - pose proof (nearest_even_error a b Hb). nia.
  - assert (Hq : a / b < 2 ^ e) by (apply Z.div_lt_upper_bound; lia).
    assert (Hlog : 53 <= Z.log2 (a / b)) by (apply Z.log2_le_pow2; lia).
    assert (Hlog' : Z.log2 (a / b) < e) by (apply Z.log2_lt_pow2; lia).
    set (t := Z.log2 (a / b) - 52) in *.
    assert (Hps : 0 < 2 ^ t) by (apply Z.pow_pos_nonneg; unfold t; lia).
    assert (Hle : 2 ^ t <= 2 ^ (e - 53)) by (apply Z.pow_le_mono_r; unfold t; lia).
    pose proof (nearest_even_error a (b * 2 ^ t) ltac:(nia)) as Herr.
    replace (nearest_even a (b * 2 ^ t) * 2 ^ t * b)
      with (nearest_even a (b * 2 ^ t) * (b * 2 ^ t)) by ring.
    nia.
Qed.

End Binary64Facts.

(** ** The AI proxy *)

Module PromptsFacts.
Import Js Binary64 Binary64Facts Prompts EstimateText.

Lemma scale_is_two_halves : scale = 2 * half.
Proof. vm_compute. reflexivity. Qed.

Lemma half_pos : 0 < half.
Proof. vm_compute. reflexivity. Qed.

Lemma scale_pos : 0 < scale.
Proof. vm_compute. reflexivity. Qed.

Lemma five_plus_half : five + half = five_and_half.
Proof. vm_compute. reflexivity. Qed.

Lemma zero_is_binary64 : is_binary64 0 = true.
Proof. vm_compute. reflexivity. Qed.

Lemma half_is_binary64 : is_binary64 half = true.
Proof. vm_compute. reflexivity. Qed.

Lemma five_is_binary64 : is_binary64 five = true.
Proof. vm_compute. reflexivity. Qed.

Lemma five_and_half_is_binary64 : is_binary64 five_and_half = true.
Proof. vm_compute. reflexivity. Qed.

(** For [f] five times the unit [sc]: from [0 <= r < 1], rounding [r * f]
    and then the sum with [h] stays between [h] and [f + h]. *)
Lemma add_mul_range (sc f h fh r : Z) :
  0 < sc -> 0 <= h -> f = 5 * sc -> f + h = fh ->
  is_binary64 f = true -> is_binary64 h = true -> is_binary64 fh = true ->
  0 <= r < sc ->
  h <= round64 (round64 (r * f) sc + h) 1 <= fh.
Proof.
  intros Hs Hh Hf Hfh Hf64 Hh64 Hfh64 [Hr0 Hr1].
  assert (H0 : 0 <= round64 (r * f) sc).
  { apply round64_ge; [nia | exact Hs | exact zero_is_binary64 | nia]. }
  assert (H5 : round64 (r * f) sc <= f).
  { apply round64_le; [nia | exact Hs | exact Hf64 | nia]. }
  split.
  - apply round64_ge; [lia | lia | exact Hh64 | lia].
  - apply round64_le; [lia | lia | exact Hfh64 | lia].
Qed.

(** [Math.random() * 5 + 0.5] lies between 0.5 and 5.5, both rounding steps
    included. *)
Lemma fallbackEstimate_range r :
  is_random r -> half <= fallbackEstimate r <= five_and_half.
Proof.
  intros Hr. unfold fallbackEstimate, add, mul.
  apply (add_mul_range scale five half five_and_half r).
  - exact scale_pos.
  - apply Z.lt_le_incl, half_pos.
  - reflexivity.
  - exact five_plus_half.
  - exact five_is_binary64.
  - exact half_is_binary64.
  - exact five_and_half_is_binary64.
  - exact Hr.
Qed.

(** Between 0.5 and 5.5, [toFixed(2)] writes between 50 and 550 hundredths. *)
Lemma nearest_scaled_range x :
  half <= x <= five_and_half -> 50 <= nearest_scaled 2 x <= 550.
Proof.
  unfold nearest_scaled, five_and_half. rewrite scale_is_two_halves.
  pose proof half_pos as Hh. fold half. intros [Hlo Hhi].
  change (10 ^ Z.of_nat 2) with 100. split.
  - apply Z.div_le_lower_bound; lia.
  - apply Z.lt_succ_r. apply Z.div_lt_upper_bound; lia.
Qed.

(** What [toFixed(2)] writes is read back as written, for each [n] from 50
    to 550. *)
Lemma hundredths_read_back : forallb reads_back hundredths = true.
Proof. vm_compute. reflexivity. Qed.

Lemma in_hundredths n : 50 <= n <= 550 -> In n hundredths.
Proof.
  intros Hn. unfold hundredths. apply in_map_iff.
  exists (Z.to_nat n). split; [lia |]. apply in_seq. lia.
Qed.

Lemma read_decimal_place_point n :
  50 <= n <= 550 -> read_decimal (place_point 2 n) = Some (n, 2%nat).
Proof.
  intros Hn.
  pose proof (proj1 (forallb_forall _ _) hundredths_read_back n (in_hundredths n Hn)) as H.
  unfold reads_back in H.
  destruct (read_decimal (place_point 2 n)) as [[v k] |]; [| discriminate].
  apply andb_prop in H as [Hv Hk].
  apply Z.eqb_eq in Hv. apply Nat.eqb_eq in Hk. congruence.
Qed.

(** ... and [parseFloat] makes of it the binary64 nearest to [n / 100], which
    lies between 0.5 and 5.5. *)
Lemma parseFloat_place_point n :
  50 <= n <= 550 ->
  parseFloat (place_point 2 n) = Some (round64 (n * scale) 100)
  /\ half <= round64 (n * scale) 100 <= five_and_half.
Proof.
  intros Hn. unfold parseFloat. rewrite (read_decimal_place_point n Hn).
  change (10 ^ Z.of_nat 2) with 100. split; [reflexivity |].
  pose proof scale_is_two_halves as Hs. pose proof half_pos as Hh.
  assert (Hfh : five_and_half = 11 * half) by reflexivity.
  split.
  - apply round64_ge; [nia | lia | exact half_is_binary64 | nia].
  - apply round64_le; [nia | lia | exact five_and_half_is_binary64 | nia].
Qed.

(** Both roundings of [r * 5 + 0.5] together move the value by at most
    [2^-50]. *)
Lemma estimate_error_bound (sc f h r u : Z) :
  0 < sc -> 0 <= h -> f = 5 * sc -> sc = 2 ^ 1074 -> u = 2 ^ 1024 ->
  f + h < 2 ^ 1077 ->
  is_binary64 f = true ->
  0 <= r < sc ->
  Z.abs (round64 (round64 (r * f) sc + h) 1 - (5 * r + h)) <= u.
Proof.
  intros Hs Hh Hf Hsc Hu Hfh Hf64 [Hr0 Hr1].
  assert (H0 : 0 <= round64 (r * f) sc).
  { apply round64_ge; [nia | exact Hs | exact zero_is_binary64 | nia]. }
  assert (H5 : round64 (r * f) sc <= f).
  { apply round64_le; [nia | exact Hs | exact Hf64 | nia]. }
  assert (Hu' : 2 ^ (1077 - 53) = u) by (subst u; reflexivity).
  assert (H1077 : 2 ^ 1077 = 8 * sc).
  { subst sc. change 1077 with (3 + 1074). rewrite Z.pow_add_r by lia. reflexivity. }
  pose proof (round64_error (r * f) sc 1077 ltac:(nia) Hs ltac:(lia) ltac:(nia)) as E1.
  pose proof (round64_error (round64 (r * f) sc + h) 1 1077
                ltac:(lia) ltac:(lia) ltac:(lia) ltac:(lia)) as E2.
  rewrite Hu' in E1, E2.
  assert (Hu0 : 0 <= u) by (subst u; apply Z.pow_nonneg; lia).
  nia.
Qed.

Lemma fallbackEstimate_close r :
  is_random r ->
  Z.abs (fallbackEstimate r - (5 * r + half)) <= two_pow_minus_50.
Proof.
  intros Hr. unfold fallbackEstimate, add, mul.
  apply (estimate_error_bound scale five half r two_pow_minus_50).
  - exact scale_pos.
  - apply Z.lt_le_incl, half_pos.
  - reflexivity.
  - reflexivity.
  - reflexivity.
  - apply Z.ltb_lt. vm_compute. reflexivity.
  - exact five_is_binary64.
  - exact Hr.
Qed.

(** [toFixed(2)] is off by at most half a hundredth. *)
Lemma nearest_scaled_close x :
  let n := nearest_scaled 2 x in
  2 * n * scale - scale <= 200 * x < 2 * n * scale + scale.
Proof.
  unfold nearest_scaled. change (10 ^ Z.of_nat 2) with 100.
  pose proof scale_pos as Hs.
  pose proof (Z.div_mod (2 * 100 * x + scale) (2 * scale) ltac:(lia)) as Hdm.
  pose proof (Z.mod_pos_bound (2 * 100 * x + scale) (2 * scale) ltac:(lia)) as Hr.
  cbv zeta. nia.
Qed.

(** C9. Without a valid credential, a prompt that contains "Estimate the
    carbon footprint" is answered with status 200 and the text [toFixed(2)]
    writes for [x = Math.random() * 5 + 0.5]. Whatever [Math.random()] yields
    in [0, 1), [x] is the sample scaled by 5 and moved by 0.5, up to the
    [2^-50] of the two roundings, so it is spread over [0.5, 5.5] as the
    sample is over [0, 1); [x] lies in [0.5, 5.5], the text shows the
    hundredths nearest to [x], and [parseFloat] reads it as a Number in
    [0.5, 5.5]. *)
Theorem estimate_without_key key prompt random provider :
  no_valid_key key = true ->
  includes prompt estimate_marker = true ->
  is_random random ->
  exists x n y,
    x = add (mul random five) half
    /\ Z.abs (x - (5 * random + half)) <= two_pow_minus_50
    /\ half <= x <= five_and_half
    /\ prompts key prompt random provider
       = mk_response 200 (VObj [("response", VStr (toFixed 2 x))])
    /\ toFixed 2 x = place_point 2 n
    /\ 2 * n * scale - scale <= 200 * x < 2 * n * scale + scale
    /\ parseFloat (toFixed 2 x) = Some y
    /\ y = round64 (n * scale) 100
    /\ half <= y <= five_and_half.
Proof.
  intros Hkey Hest Hr.
  pose proof (fallbackEstimate_range random Hr) as Hx.
  pose proof (nearest_scaled_range _ Hx) as Hn.
  destruct (parseFloat_place_point _ Hn) as [Hparse Hy].
  exists (fallbackEstimate random), (nearest_scaled 2 (fallbackEstimate random)),
    (round64 (nearest_scaled 2 (fallbackEstimate random) * scale) 100).
  split; [reflexivity |]. split; [exact (fallbackEstimate_close random Hr) |].
  split; [exact Hx |].
  split; [unfold prompts, fallback_without_key; rewrite Hkey, Hest; reflexivity |].
  split; [reflexivity |]. split; [apply nearest_scaled_close |].
  split; [exact Hparse |]. split; [reflexivity | exact Hy].
Qed.

Lemma estimate_without_key_witness :
  no_valid_key None = true
  /\ includes "Estimate the carbon footprint of a mug" estimate_marker = true
  /\ is_random (scale / 3)
  /\ exists x n y,
    x = add (mul (scale / 3) five) half
    /\ Z.abs (x - (5 * (scale / 3) + half)) <= two_pow_minus_50
    /\ half <= x <= five_and_half
    /\ prompts None "Estimate the carbon footprint of a mug" (scale / 3) (Text "")
       = mk_response 200 (VObj [("response", VStr (toFixed 2 x))])
    /\ toFixed 2 x = place_point 2 n
    /\ 2 * n * scale - scale <= 200 * x < 2 * n * scale + scale
    /\ parseFloat (toFixed 2 x) = Some y
    /\ y = round64 (n * scale) 100
    /\ half <= y <= five_and_half.
Proof.
  assert (Hkey : no_valid_key None = true) by reflexivity.
  assert (Hest : includes "Estimate the carbon footprint of a mug" estimate_marker = true)
    by (vm_compute; reflexivity).
  assert (Hr : is_random (scale / 3))
    by (split; [apply Z.leb_le | apply Z.ltb_lt]; vm_compute; reflexivity).
  split; [exact Hkey |]. split; [exact Hest |]. split; [exact Hr |].
  exact (estimate_without_key None "Estimate the carbon footprint of a mug"
           (scale / 3) (Text "") Hkey Hest Hr).
Defined.

(** C8. When the provider call fails, the [catch] block classifies the prompt
    as the branch without credential does (same [response] text), and the
    status is 500, with the error message next to the apology, exactly when
    the prompt contains neither marker; otherwise the status is 200 and the
    body is that of the branch without credential. *)
Theorem provider_failure_status key prompt random message :
  no_valid_key key = false ->
  let r := prompts key prompt random (Throws message) in
  let r0 := prompts None prompt random (Throws message) in
  response_text r = response_text r0
  /\ (status r = 500 <->
      includes prompt estimate_marker = false
      /\ includes prompt suggestions_marker = false)
  /\ (status r = 500 ->
      body r = VObj [("error", VStr message); ("response", VStr apology)])
  /\ (includes prompt estimate_marker = true
      \/ includes prompt suggestions_marker = true ->
      status r = 200 /\ body r = body r0).
Proof.
  intros Hkey. unfold prompts. rewrite Hkey. cbn [no_valid_key].
  unfold fallback_on_error, fallback_without_key, response_text.
  destruct (includes prompt estimate_marker);
    [| destruct (includes prompt suggestions_marker)]; cbn;
    repeat split; intros; try reflexivity; try discriminate;
    try (exfalso; intuition discriminate).
Qed.

Lemma provider_failure_status_witness :
  no_valid_key (Some "key") = false /\
  let r := prompts (Some "key") "hello" 0 (Throws "quota exceeded") in
  let r0 := prompts None "hello" 0 (Throws "quota exceeded") in
  response_text r = response_text r0
  /\ (status r = 500 <->
      includes "hello" estimate_marker = false
      /\ includes "hello" suggestions_marker = false)
  /\ (status r = 500 ->
      body r = VObj [("error", VStr "quota exceeded"); ("response", VStr apology)])
  /\ (includes "hello" estimate_marker = true
      \/ includes "hello" suggestions_marker = true ->
      status r = 200 /\ body r = body r0).
Proof.
  split; [reflexivity |].
  apply (provider_failure_status (Some "key") "hello" 0 "quota exceeded").
  reflexivity.
Defined.

Lemma read_decimal_advice : read_decimal advice = Some (1, 0%nat).
Proof. vm_compute. reflexivity. Qed.

(** C10. A prompt that contains both markers gets the numeric estimate, in
    the branch without credential and in the [catch] block alike, and that
    text is not the advice. *)
Theorem both_markers_give_estimate key prompt random provider message :
  includes prompt estimate_marker = true ->
  includes prompt suggestions_marker = true ->
  is_random random ->
  (no_valid_key key = true ->
   prompts key prompt random provider = estimate_response random)
  /\ (no_valid_key key = false ->
      prompts key prompt random (Throws message) = estimate_response random)
  /\ response_text (estimate_response random)
     = Some (toFixed 2 (fallbackEstimate random))
  /\ toFixed 2 (fallbackEstimate random) <> advice.
Proof.
  intros Hest Hsug Hr. unfold prompts, fallback_without_key, fallback_on_error.
  rewrite Hest. repeat split.
  - intros Hkey. rewrite Hkey. reflexivity.
  - intros Hkey. rewrite Hkey. reflexivity.
  - intros Heq.
    pose proof (nearest_scaled_range _ (fallbackEstimate_range random Hr)) as Hn.
    pose proof (read_decimal_place_point _ Hn) as Hread.
    unfold toFixed in Heq. rewrite Heq, read_decimal_advice in Hread.
    discriminate.
Qed.

Lemma both_markers_give_estimate_witness :
  includes both_markers estimate_marker = true
  /\ includes both_markers suggestions_marker = true
  /\ is_random 0
  /\ (no_valid_key (Some "key") = true ->
   prompts (Some "key") both_markers 0 (Throws "timeout") = estimate_response 0)
  /\ (no_valid_key (Some "key") = false ->
      prompts (Some "key") both_markers 0 (Throws "timeout") = estimate_response 0)
  /\ response_text (estimate_response 0) = Some (toFixed 2 (fallbackEstimate 0))
  /\ toFixed 2 (fallbackEstimate 0) <> advice.
Proof.
  assert (Hest : includes both_markers estimate_marker = true)
    by (vm_compute; reflexivity).
  assert (Hsug : includes both_markers suggestions_marker = true)
    by (vm_compute; reflexivity).
  assert (Hr : is_random 0)
    by (split; [apply Z.leb_le | apply Z.ltb_lt]; vm_compute; reflexivity).
  split; [exact Hest |]. split; [exact Hsug |]. split; [exact Hr |].
  exact (both_markers_give_estimate (Some "key") both_markers 0
           (Throws "timeout") "timeout" Hest Hsug Hr).
Defined.

End PromptsFacts.

(** ** The order of timestamps *)

Module TimestampOrder.

Lemma compare_as_OT a b : String_as_OT.compare a b = String.compare a b.
Proof.
  revert b. induction a as [| c a IH]; destruct b as [| d b]; cbn;
    try reflexivity; rewrite IH;
    unfold Ascii_as_OT.compare, Ascii.compare, N_as_OT.compare;
    destruct (N.compare (N_of_ascii c) (N_of_ascii d)); reflexivity.
Qed.

Lemma compare_refl a : String.compare a a = Eq.
Proof.
  pose proof (String.compare_antisym a a) as H.
  destruct (String.compare a a); cbn in H; congruence.
Qed.

Lemma compare_lt_trans a b c :
  String.compare a b = Lt -> String.compare b c = Lt -> String.compare a c = Lt.
Proof.
  rewrite <- !compare_as_OT. intros Hab Hbc.
  exact (StrictOrder_Transitive (R := String_as_OT.lt) a b c Hab Hbc).
Qed.

Lemma leb_cases a b : String.leb a b = true <-> String.compare a b = Lt \/ a = b.
Proof.
  unfold String.leb. split.
  - destruct (String.compare a b) eqn:H; intros Hle; try discriminate.
    + right. apply String.compare_eq_iff. exact H.
    + left. reflexivity.
  - intros [H | H]; [rewrite H | subst; rewrite compare_refl]; reflexivity.
Qed.

Lemma leb_trans a b c :
  String.leb a b = true -> String.leb b c = true -> String.leb a c = true.
Proof.
  rewrite !leb_cases. intros [Hab | Hab] [Hbc | Hbc]; subst; auto.
  left. eapply compare_lt_trans; eassumption.
Qed.

Lemma ltb_not_leb a b : String.ltb a b = true -> String.leb b a = false.
Proof.
  unfold String.ltb, String.leb. rewrite (String.compare_antisym b a).
  destruct (String.compare a b); cbn; congruence.
Qed.

End TimestampOrder.

(** ** [ORDER BY o.timestamp DESC] *)

Module SortFacts.
Import Storage TimestampOrder.
Local Open Scope list_scope.

Lemma insert_desc_perm o l : Permutation (o :: l) (insert_desc o l).
Proof.
  induction l as [| x rest IH]; cbn.
  - apply Permutation_refl.
  - destruct (String.leb (o_timestamp x) (o_timestamp o)).
    + apply Permutation_refl.
    + apply perm_trans with (x :: o :: rest); [apply perm_swap |].
      apply perm_skip. exact IH.
Qed.

Lemma order_by_timestamp_desc_perm l :
  Permutation l (order_by_timestamp_desc l).
Proof.
  induction l as [| o l IH]; cbn.
  - apply perm_nil.
  - apply perm_trans with (o :: order_by_timestamp_desc l).
    + apply perm_skip. exact IH.
    + apply insert_desc_perm.
Qed.

Lemma insert_desc_sorted o l :
  StronglySorted newer_first l -> StronglySorted newer_first (insert_desc o l).
Proof.
  induction l as [| x rest IH]; cbn; intros Hs.
  - constructor; constructor.
  - apply StronglySorted_inv in Hs as [Hrest Hx].
    destruct (String.leb (o_timestamp x) (o_timestamp o)) eqn:Hle.
    + constructor; [constructor; assumption |].
      constructor; [exact Hle |].
      eapply Forall_impl; [| exact Hx]. intros y Hy. unfold newer_first in *.
      eapply leb_trans; [exact Hy | exact Hle].
    + constructor; [apply IH; exact Hrest |].
      apply (Permutation_Forall (insert_desc_perm o rest)).
      constructor; [| exact Hx]. unfold newer_first.
      destruct (String.leb_total (o_timestamp x) (o_timestamp o)); congruence.
Qed.

Lemma order_by_timestamp_desc_sorted l :
  StronglySorted newer_first (order_by_timestamp_desc l).
Proof.
  induction l as [| o l IH]; cbn.
  - constructor.
  - apply insert_desc_sorted. exact IH.
Qed.

Lemma sorted_app_tail (l1 : list order_row) a l2 :
  StronglySorted newer_first (l1 ++ a :: l2) -> Forall (newer_first a) l2.
Proof.
  induction l1 as [| x l1 IH]; cbn; intros Hs;
    apply StronglySorted_inv in Hs as [Hrest Hx]; auto.
Qed.

(** In a listing, a row with a strictly later timestamp stands before one
    with an earlier timestamp. *)
Lemma sorted_newer_precedes l a b :
  StronglySorted newer_first l -> In a l -> In b l ->
  String.ltb (o_timestamp a) (o_timestamp b) = true ->
  exists pre mid post, l = pre ++ b :: mid ++ a :: post.
Proof.
  intros Hs Ha Hb Hlt.
  apply in_split in Ha as [l1 [l2 Hl]]. subst l.
  apply in_app_or in Hb as [Hb | [Hb | Hb]].
  - apply in_split in Hb as [pre [mid Hl1]]. subst l1.
    exists pre, mid, l2. rewrite <- app_assoc. reflexivity.
  - subst b. unfold String.ltb in Hlt. rewrite compare_refl in Hlt. discriminate.
  - apply sorted_app_tail in Hs.
    rewrite Forall_forall in Hs. specialize (Hs b Hb). unfold newer_first in Hs.
    rewrite (ltb_not_leb _ _ Hlt) in Hs. discriminate.
Qed.

(** The index order is an order of the same rows. *)
Lemma index_insert_perm i l : Permutation (i :: l) (index_insert i l).
Proof.
  induction l as [| j rest IH]; cbn; [apply Permutation_refl |].
  destruct (index_compare i j); try apply Permutation_refl.
  apply perm_trans with (j :: i :: rest); [apply perm_swap |].
  apply perm_skip. exact IH.
Qed.

Lemma index_order_perm l : Permutation (index_order l) l.
Proof.
  induction l as [| i l IH]; cbn; [apply perm_nil |].
  apply Permutation_sym, perm_trans with (i :: index_order l).
  - apply perm_skip, Permutation_sym, IH.
  - apply index_insert_perm.
Qed.

Lemma index_order_not_nil l : l <> [] -> index_order l <> [].
Proof.
  intros Hne He. pose proof (index_order_perm l) as Hp. rewrite He in Hp.
  apply Permutation_nil in Hp. contradiction.
Qed.

End SortFacts.

(** ** The order repository *)

Module OrdersFacts.
Import Js Storage Orders TimestampOrder SortFacts.
Local Open Scope list_scope.

(** *** The item inserts of [POST] and [PUT] *)

Lemma insert_items_rows id its s :
  fold_left (fun s it => insert_item id it s) its s
  = mk_db (orders s) (order_items s ++ new_rows id (items_seq s) its)
          (orders_seq s) (items_seq s + Z.of_nat (List.length its)).
Proof.
  revert s. induction its as [| it its IH]; intros s.
  - cbn. rewrite app_nil_r, Z.add_0_r. destruct s; reflexivity.
  - cbn [fold_left]. rewrite IH. cbn [insert_item orders order_items orders_seq items_seq new_rows].
    rewrite <- app_assoc. cbn [app]. f_equal. cbn [List.length]. lia.
Qed.

Lemma run_items_no_fault id its k s :
  run_items id its (repeat None k) s
  = (fold_left (fun s it => insert_item id it s) its s, None).
Proof.
  revert k s. induction its as [| it its IH]; intros k s; cbn [run_items fold_left].
  - reflexivity.
  - destruct k as [| k]; cbn [repeat hd tl].
    + apply (IH 0%nat).
    + apply IH.
Qed.

Lemma new_rows_fields id from its : map item_fields (new_rows id from its) = its.
Proof.
  revert from. induction its as [| it its IH]; intros from; cbn.
  - reflexivity.
  - rewrite IH. destruct it; reflexivity.
Qed.

Lemma new_rows_fresh id from its :
  Forall (fun i => i_orderId i = id /\ from < i_id i) (new_rows id from its).
Proof.
  revert from. induction its as [| it its IH]; intros from; cbn; constructor.
  - cbn. lia.
  - eapply Forall_impl; [| apply IH]. cbn. intros i [? ?]. lia.
Qed.

Lemma filter_new_rows_same id from its :
  filter (fun i => i_orderId i =? id) (new_rows id from its) = new_rows id from its.
Proof.
  revert from. induction its as [| it its IH]; intros from; cbn.
  - reflexivity.
  - rewrite Z.eqb_refl, IH. reflexivity.
Qed.

Lemma filter_new_rows_other id id' from its :
  id' <> id -> filter (fun i => i_orderId i =? id') (new_rows id from its) = [].
Proof.
  intros Hne. revert from. induction its as [| it its IH]; intros from; cbn.
  - reflexivity.
  - destruct (Z.eqb_spec id id'); [congruence | apply IH].
Qed.

Lemma filter_out_then_in (id : Z) (l : list item_row) :
  filter (fun i => i_orderId i =? id) (filter (fun i => negb (i_orderId i =? id)) l) = [].
Proof.
  induction l as [| i l IH]; cbn; [reflexivity |].
  destruct (i_orderId i =? id) eqn:H; cbn; [exact IH |]. rewrite H. exact IH.
Qed.

Lemma filter_out_other (id id' : Z) (l : list item_row) :
  id' <> id ->
  filter (fun i => i_orderId i =? id') (filter (fun i => negb (i_orderId i =? id)) l)
  = filter (fun i => i_orderId i =? id') l.
Proof.
  intros Hne. induction l as [| i l IH]; cbn; [reflexivity |].
  destruct (Z.eqb_spec (i_orderId i) id) as [He | He]; cbn.
  - destruct (Z.eqb_spec (i_orderId i) id'); [congruence | exact IH].
  - destruct (i_orderId i =? id'); [rewrite IH |]; auto.
Qed.

(** C4. An update that meets no storage failure overwrites the scalar
    columns of the order rows with that id and of no other, removes every
    item row of that id, inserts one row per supplied item, in order and with
    the supplied columns, leaves the items of other orders alone, and answers
    with the number of order rows the [UPDATE] touched. *)
Theorem update_replaces_items id b k s :
  let f := mk_update_faults None None (repeat None k) None in
  let s' := fst (update_order_items id b f s) in
  snd (update_order_items id b f s)
  = json (VObj [("message", VStr "success");
                ("changes",
                 VInt (Z.of_nat (List.length (filter (fun o => o_id o =? id) (orders s)))))])
  /\ orders s'
     = map (fun o => if o_id o =? id
                     then mk_order (o_id o) (customerName b) (totalPrice b)
                                   (totalCarbonSaved b) (o_timestamp o)
                     else o) (orders s)
  /\ (exists fresh,
        order_items s'
        = filter (fun i => negb (i_orderId i =? id)) (order_items s) ++ fresh
        /\ map item_fields fresh = items b
        /\ Forall (fun i => i_orderId i = id /\ items_seq s < i_id i) fresh)
  /\ map item_fields (items_of id s') = items b
  /\ (forall id', id' <> id -> items_of id' s' = items_of id' s).
Proof.
  cbv zeta. unfold update_order_items.
  cbn [uf_update uf_delete uf_items uf_finalize update_order].
  rewrite run_items_no_fault, insert_items_rows.
  cbn [fst snd delete_items orders order_items orders_seq items_seq].
  split; [reflexivity |]. split; [reflexivity |]. split; [| split].
  - eexists. split; [reflexivity |]. split; [apply new_rows_fields | apply new_rows_fresh].
  - unfold items_of. cbn [order_items]. rewrite filter_app, filter_out_then_in.
    cbn [app]. rewrite filter_new_rows_same. apply new_rows_fields.
  - intros id' Hne. unfold items_of. cbn [order_items].
    rewrite filter_app, filter_out_other, filter_new_rows_other by assumption.
    apply app_nil_r.
Qed.

(** *** Reading *)

Lemma has_order_false_filter s id :
  has_order s id = false -> filter (fun o => o_id o =? id) (orders s) = [].
Proof.
  unfold has_order. induction (orders s) as [| o l IH]; cbn; [reflexivity |].
  destruct (o_id o =? id); cbn; [discriminate | exact IH].
Qed.

(** C7. Reading an id that no order row has, with no storage failure, is
    answered with status 200 and [{message: "success", data: undefined}]
    (no [data] in the text sent), and leaves the store as it was. *)
Theorem read_missing_order id s :
  has_order s id = false ->
  read_order id None s
  = (s, Responded (mk_response 200 (VObj [("message", VStr "success");
                                          ("data", VUndefined)]))).
Proof.
  intros Hno. unfold read_order, select_order.
  rewrite (has_order_false_filter s id Hno). reflexivity.
Qed.

Lemma read_missing_order_witness :
  has_order empty_db 7 = false
  /\ read_order 7 None empty_db
  = (empty_db, Responded (mk_response 200 (VObj [("message", VStr "success");
                                                 ("data", VUndefined)]))).
Proof.
  split; [reflexivity |].
  apply (read_missing_order 7 empty_db). reflexivity.
Defined.

(** *** Storage failures *)

(** A failure of the list query is answered with status 500, not 400. *)
Lemma list_failure_is_500 :
  snd (list_orders (Some "SQLITE_IOERR: disk I/O error") empty_db)
  = status_json 500 (error_body "SQLITE_IOERR: disk I/O error")
  /\ snd (list_orders (Some "SQLITE_IOERR: disk I/O error") empty_db)
     <> status_json 400 (error_body "SQLITE_IOERR: disk I/O error").
Proof. split; [reflexivity | discriminate]. Qed.

(** C3, as the handlers have it. A failure of a statement whose callback the
    handler checks is answered with [{error: message}] carrying the message
    of the failure: with status 500 by the listing, with status 400 by
    reading, and by the order insert and the [finalize] of creating, the
    [UPDATE], the item [DELETE] and the [finalize] of updating, and the two
    [DELETE]s of deleting. ([k] item inserts are given no fault.) *)
Theorem storage_failure_responses (m : string) (s : db) :
  snd (list_orders (Some m) s) = status_json 500 (error_body m)
  /\ (forall id, snd (read_order id (Some m) s) = status_json 400 (error_body m))
  /\ (forall now iso b fi ff,
        snd (create_order now iso b (mk_create_faults (Some m) fi ff) s)
        = status_json 400 (error_body m))
  /\ (forall now iso b k,
        snd (create_order now iso b (mk_create_faults None (repeat None k) (Some m)) s)
        = status_json 400 (error_body m))
  /\ (forall id b fd fi ff,
        snd (update_order_items id b (mk_update_faults (Some m) fd fi ff) s)
        = status_json 400 (error_body m))
  /\ (forall id b fi ff,
        snd (update_order_items id b (mk_update_faults None (Some m) fi ff) s)
        = status_json 400 (error_body m))
  /\ (forall id b k,
        snd (update_order_items id b
               (mk_update_faults None None (repeat None k) (Some m)) s)
        = status_json 400 (error_body m))
  /\ (forall id fo,
        snd (remove_order id (mk_delete_faults (Some m) fo) s)
        = status_json 400 (error_body m))
  /\ (forall id,
        snd (remove_order id (mk_delete_faults None (Some m)) s)
        = status_json 400 (error_body m)).
Proof.
  repeat split; intros; try reflexivity.
  - unfold create_order. cbn [cf_insert cf_items cf_finalize insert_order].
    rewrite run_items_no_fault. reflexivity.
  - unfold update_order_items. cbn [uf_update uf_delete uf_items uf_finalize update_order].
    rewrite run_items_no_fault. reflexivity.
Qed.

(** *** Orders without items *)

(** For an order without item rows the join yields one row of [NULL]s, and
    the listing and the reading show it as one item. *)
Lemma no_items_placeholder s o :
  items_of (o_id o) s = [] ->
  row_items (parse_items (select_row s o)) = Some (VArr [json_object None]).
Proof.
  intros Hnone. unfold select_row, left_join. rewrite Hnone. reflexivity.
Qed.

(** C2, at an order created without items: the store holds no item row for
    it, and both the listing and the reading show [items] as an array of one
    object whose five fields are [null]. *)
Theorem order_without_items_shows_placeholder :
  let s := fst (create_order "2026-01-01 10:00:00" "2026-01-01T10:00:00.000Z"
                  alice_without_items no_create_faults empty_db) in
  reachable s
  /\ items_of 1 s = []
  /\ map row_items (listed (snd (list_orders None s)))
     = [Some (VArr [VObj [("id", VNull); ("itemName", VNull); ("unitPrice", VNull);
                          ("quantity", VNull); ("carbonSaved", VNull)]])]
  /\ option_map row_items (data_of (snd (read_order 1 None s)))
     = Some (Some (VArr [VObj [("id", VNull); ("itemName", VNull);
                               ("unitPrice", VNull); ("quantity", VNull);
                               ("carbonSaved", VNull)]])).
Proof.
  cbv zeta. split; [| repeat split; reflexivity].
  apply (reachable_step
           (PostOrder "2026-01-01 10:00:00" "2026-01-01T10:00:00.000Z"
              alice_without_items no_create_faults) empty_db).
  apply reachable_empty.
Qed.

(** C5, at a body without items: the response echoes an empty [items] and
    the generated id 1, and reading that id shows one item. *)
Theorem create_without_items_reads_one_item :
  let r := create_order "2026-01-01 10:00:00" "2026-01-01T10:00:00.000Z"
             alice_without_items no_create_faults empty_db in
  option_map row_id (data_of (snd r)) = Some (Some (VInt 1))
  /\ option_map row_items (data_of (snd r)) = Some (Some (VArr []))
  /\ exists item,
       option_map row_items (data_of (snd (read_order 1 None (fst r))))
       = Some (Some (VArr [item])).
Proof.
  cbv zeta. split; [reflexivity |]. split; [reflexivity |].
  eexists. reflexivity.
Qed.

(** *** Creating *)

Lemma create_order_no_fault now iso b k s :
  create_order now iso b (mk_create_faults None (repeat None k) None) s
  = (mk_db (orders s ++ [mk_order (orders_seq s + 1) (customerName b) (totalPrice b)
                                  (totalCarbonSaved b) now])
           (order_items s ++ new_rows (orders_seq s + 1) (items_seq s) (items b))
           (orders_seq s + 1)
           (items_seq s + Z.of_nat (List.length (items b))),
     json (VObj [("message", VStr "success");
                 ("data", VObj [("id", VInt (orders_seq s + 1));
                                ("customerName", VStr (customerName b));
                                ("totalPrice", VNum (totalPrice b));
                                ("totalCarbonSaved", VNum (totalCarbonSaved b));
                                ("items", VArr (map item_value (items b)));
                                ("timestamp", VStr iso)])])).
Proof.
  unfold create_order. cbn [cf_insert cf_items cf_finalize insert_order].
  rewrite run_items_no_fault, insert_items_rows. reflexivity.
Qed.

Lemma row_id_select_row s o :
  row_id (parse_items (select_row s o)) = Some (VInt (o_id o)).
Proof. reflexivity. Qed.

Lemma row_items_select_row s o :
  items_of (o_id o) s <> [] ->
  row_items (parse_items (select_row s o))
  = Some (VArr (map (fun i => json_object (Some i)) (items_of (o_id o) s))).
Proof.
  intros Hsome. unfold select_row, left_join.
  destruct (items_of (o_id o) s) as [| i l]; [congruence |].
  cbn. rewrite map_map. reflexivity.
Qed.

Lemma row_id_list_row s o :
  row_id (parse_items (list_row s o)) = Some (VInt (o_id o)).
Proof. reflexivity. Qed.

Lemma row_items_list_row s o :
  items_of (o_id o) s <> [] ->
  row_items (parse_items (list_row s o))
  = Some (VArr (map (fun i => json_object (Some i))
                  (index_order (items_of (o_id o) s)))).
Proof.
  intros Hsome. apply index_order_not_nil in Hsome.
  unfold list_row, left_join_indexed.
  destruct (index_order (items_of (o_id o) s)) as [| i l]; [congruence |].
  cbn. rewrite map_map. reflexivity.
Qed.

(** What [json_object] writes for an item row shows that row. *)
Lemma json_object_shows i : shows i (json_object (Some i)).
Proof.
  unfold shows. cbn.
  split; [reflexivity |]. split; [reflexivity |].
  split; [intros ->; reflexivity |].
  split; [intros ->; reflexivity |]. intros ->. reflexivity.
Qed.

Lemma json_objects_show l :
  Forall2 shows l (map (fun i => json_object (Some i)) l).
Proof.
  induction l as [| i l IH]; cbn; constructor; [apply json_object_shows | exact IH].
Qed.

Lemma bounded_filter_next s :
  ids_bounded s -> filter (fun o => o_id o =? orders_seq s + 1) (orders s) = [].
Proof.
  unfold ids_bounded. induction (orders s) as [| o l IH]; intros Hb; cbn; [reflexivity |].
  destruct (Z.eqb_spec (o_id o) (orders_seq s + 1)) as [He | He].
  - specialize (Hb o (or_introl eq_refl)). lia.
  - apply IH. intros o' Ho'. apply Hb. right. exact Ho'.
Qed.

Lemma has_order_bounded s id :
  ids_bounded s -> has_order s id = true -> id <= orders_seq s.
Proof.
  unfold has_order. intros Hb H. apply existsb_exists in H as [o [Ho He]].
  apply Z.eqb_eq in He. subst id. apply Hb. exact Ho.
Qed.

Lemma no_items_of_next s :
  ids_bounded s -> referential_integrity s -> items_of (orders_seq s + 1) s = [].
Proof.
  intros Hb Hri. unfold items_of.
  assert (H : forall i, In i (order_items s) -> i_orderId i <> orders_seq s + 1).
  { intros i Hi He. pose proof (has_order_bounded s _ Hb (Hri i Hi)). lia. }
  induction (order_items s) as [| i l IH]; cbn; [reflexivity |].
  destruct (Z.eqb_spec (i_orderId i) (orders_seq s + 1)) as [He | He].
  - exfalso. apply (H i (or_introl eq_refl) He).
  - apply IH. intros i' Hi'. apply H. right. exact Hi'.
Qed.

(** The rows inserted for items whose numbers SQLite's JSON keeps are shown
    as supplied. *)
Lemma new_rows_show_supplied id from its :
  Forall numbers_kept its ->
  Forall2 shows_supplied its
          (map (fun i => json_object (Some i)) (new_rows id from its)).
Proof.
  intros Hk. revert from. induction Hk as [| it its Hit Hits IH]; intros from; cbn [new_rows map].
  - constructor.
  - constructor; [| apply IH].
    destruct Hit as (Hp & Hq & Hc). unfold shows_supplied, json_object, field.
    cbn [get_field String.eqb Ascii.eqb Bool.eqb i_itemName i_unitPrice i_quantity
         i_carbonSaved].
    rewrite Hp, Hq, Hc. repeat split; reflexivity.
Qed.

(** Creating an order with at least one item and reading the returned id, on
    a store whose items all have their order: when SQLite's JSON keeps the
    numbers of the request, the reading shows one entry per supplied item, in
    order, each with the supplied name, price, quantity and carbon value. *)
Lemma create_then_read now iso b k s :
  ids_bounded s -> referential_integrity s -> items b <> [] ->
  Forall numbers_kept (items b) ->
  let r := create_order now iso b (mk_create_faults None (repeat None k) None) s in
  option_map row_id (data_of (snd r)) = Some (Some (VInt (orders_seq s + 1)))
  /\ exists entries,
       option_map row_items
         (data_of (snd (read_order (orders_seq s + 1) None (fst r))))
       = Some (Some (VArr entries))
       /\ Forall2 shows_supplied (items b) entries.
Proof.
  intros Hb Hri Hne Hkept. cbv zeta. rewrite create_order_no_fault. cbn [fst snd].
  split; [reflexivity |].
  exists (map (fun i => json_object (Some i))
            (new_rows (orders_seq s + 1) (items_seq s) (items b))).
  split; [| apply new_rows_show_supplied, Hkept].
  unfold read_order, select_order. cbn [orders].
  rewrite filter_app, (bounded_filter_next s Hb). cbn [filter app].
  rewrite Z.eqb_refl.
  set (o := mk_order _ _ _ _ _). set (s' := mk_db _ _ _ _).
  assert (Hitems : items_of (o_id o) s'
                   = new_rows (orders_seq s + 1) (items_seq s) (items b)).
  { unfold items_of, s', o. cbn [order_items o_id]. rewrite filter_app.
    fold (items_of (orders_seq s + 1) s). rewrite (no_items_of_next s Hb Hri).
    cbn [app]. apply filter_new_rows_same. }
  assert (Hrow : row_items (parse_items (select_row s' o))
                 = Some (VArr (map (fun i => json_object (Some i))
                                 (new_rows (orders_seq s + 1) (items_seq s) (items b))))).
  { rewrite row_items_select_row; rewrite Hitems; [reflexivity |].
    destruct (items b); [congruence | discriminate]. }
  cbn [select_row]. cbn [data_of snd json body field get_field String.eqb Ascii.eqb Bool.eqb option_map].
  exact (f_equal Some Hrow).
Qed.

(** Without that condition on the store the reading can show more: items
    left for id 1 by an update are shown with the order that later gets id 1. *)
Lemma orphan_items_join_new_order :
  let s := fst (update_order_items 1 alice no_update_faults empty_db) in
  let r := create_order "2026-01-01 10:00:00" "2026-01-01T10:00:00.000Z" alice
             no_create_faults s in
  option_map row_id (data_of (snd r)) = Some (Some (VInt 1))
  /\ exists item1 item2,
       option_map row_items (data_of (snd (read_order 1 None (fst r))))
       = Some (Some (VArr [item1; item2])).
Proof. cbv zeta. split; [reflexivity |]. do 2 eexists. reflexivity. Qed.

(** *** Items and their orders *)

(** C1, at an update of an id that no order row has: the [UPDATE] touches no
    row, the handler still inserts the supplied items, and the store it
    leaves has an item row of order 7 and no order row at all. *)
Theorem update_of_missing_order_leaves_orphan_items :
  let r := update_order_items 7 alice no_update_faults empty_db in
  reachable empty_db
  /\ referential_integrity empty_db
  /\ snd r = json (VObj [("message", VStr "success"); ("changes", VInt 0)])
  /\ reachable (fst r)
  /\ orders (fst r) = []
  /\ order_items (fst r) = [mk_item 1 7 "Mug" 10 2 (3 # 2)]
  /\ ~ referential_integrity (fst r).
Proof.
  cbv zeta. split; [apply reachable_empty |].
  split; [intros i [] |]. split; [reflexivity |].
  split; [apply (reachable_step (PutOrder 7 alice no_update_faults) empty_db),
          reachable_empty |].
  split; [reflexivity |]. split; [reflexivity |].
  intros H. specialize (H (mk_item 1 7 "Mug" 10 2 (3 # 2)) (or_introl eq_refl)).
  discriminate H.
Qed.

(** Everything but an update of an id without order row keeps every item
    with its order, whatever storage failures occur. *)
Lemma has_order_same_orders s s' id :
  orders s' = orders s -> has_order s' id = has_order s id.
Proof. unfold has_order. intros ->. reflexivity. Qed.

Lemma insert_item_integrity id it s :
  has_order s id = true -> referential_integrity s ->
  referential_integrity (insert_item id it s).
Proof.
  intros Hid Hri i Hi. cbn [insert_item order_items] in Hi.
  rewrite (has_order_same_orders s) by reflexivity.
  apply in_app_or in Hi as [Hi | [Hi | []]]; [apply Hri; exact Hi |].
  subst i. exact Hid.
Qed.

Lemma run_items_orders id its fs s :
  orders (fst (run_items id its fs s)) = orders s
  /\ orders_seq (fst (run_items id its fs s)) = orders_seq s.
Proof.
  revert fs s. induction its as [| it its IH]; intros fs s; cbn [run_items].
  - split; reflexivity.
  - destruct (hd None fs); [cbn [fst]; apply IH |].
    destruct (IH (tl fs) (insert_item id it s)) as [H1 H2].
    rewrite H1, H2. split; reflexivity.
Qed.

Lemma run_items_integrity id its fs s :
  has_order s id = true -> referential_integrity s ->
  referential_integrity (fst (run_items id its fs s)).
Proof.
  revert fs s. induction its as [| it its IH]; intros fs s Hid Hri; cbn [run_items].
  - exact Hri.
  - destruct (hd None fs); [cbn [fst]; apply IH; assumption |].
    apply IH; [| apply insert_item_integrity; assumption].
    rewrite (has_order_same_orders s) by reflexivity. exact Hid.
Qed.

Lemma fst_create_order now iso b f s :
  fst (create_order now iso b f s)
  = match cf_insert f with
    | Some _ => s
    | None =>
        fst (run_items (orders_seq s + 1) (items b) (cf_items f)
               (fst (insert_order now (customerName b) (totalPrice b)
                       (totalCarbonSaved b) s)))
    end.
Proof.
  unfold create_order. destruct (cf_insert f); [reflexivity |].
  cbn [insert_order fst]. destruct (run_items _ _ _ _) as [s2 [m |]]; cbn [fst].
  - reflexivity.
  - destruct (cf_finalize f); reflexivity.
Qed.

Lemma fst_update_order_items id b f s :
  fst (update_order_items id b f s)
  = match uf_update f with
    | Some _ => s
    | None =>
        let s1 := fst (update_order id (customerName b) (totalPrice b)
                         (totalCarbonSaved b) s) in
        match uf_delete f with
        | Some _ => s1
        | None => fst (run_items id (items b) (uf_items f) (delete_items id s1))
        end
    end.
Proof.
  unfold update_order_items. destruct (uf_update f); [reflexivity |].
  cbn [update_order fst]. destruct (uf_delete f); [reflexivity |].
  destruct (run_items _ _ _ _) as [s3 [m |]]; cbn [fst].
  - reflexivity.
  - destruct (uf_finalize f); reflexivity.
Qed.

Lemma fst_remove_order id f s :
  fst (remove_order id f s)
  = match df_items f with
    | Some _ => s
    | None =>
        match df_order f with
        | Some _ => delete_items id s
        | None => fst (delete_order id (delete_items id s))
        end
    end.
Proof.
  unfold remove_order. destruct (df_items f); [reflexivity |].
  destruct (df_order f); reflexivity.
Qed.

Lemma has_order_set_scalars id name price carbon l id' :
  existsb (fun o => o_id o =? id') (map (set_scalars id name price carbon) l)
  = existsb (fun o => o_id o =? id') l.
Proof.
  induction l as [| o l IH]; cbn; [reflexivity |]. rewrite IH. f_equal.
  unfold set_scalars. destruct (o_id o =? id); reflexivity.
Qed.

(** Every request keeps every item row with an order row, whatever storage
    failures it meets, unless it is an update of an id that has no order row. *)
Lemma integrity_preserved r s :
  referential_integrity s ->
  (forall id b f, r = PutOrder id b f -> has_order s id = true) ->
  referential_integrity (fst (handle r s)).
Proof.
  intros Hri Hput. destruct r as [f | now iso b f | id f | id b f | id f]; cbn [handle].
  - unfold list_orders. destruct f; exact Hri.
  - rewrite fst_create_order. destruct (cf_insert f); [exact Hri |].
    apply run_items_integrity.
    + unfold has_order. cbn [insert_order fst orders]. rewrite existsb_app. cbn.
      rewrite Z.eqb_refl. apply orb_true_r.
    + intros i Hi. cbn [insert_order fst order_items] in Hi.
      unfold has_order. cbn [insert_order fst orders]. rewrite existsb_app.
      apply orb_true_iff. left. apply (Hri i Hi).
  - unfold read_order. destruct f; exact Hri.
  - specialize (Hput id b f eq_refl). rewrite fst_update_order_items.
    destruct (uf_update f); [exact Hri |]. cbv zeta.
    assert (Hsame : forall id',
               existsb (fun o => o_id o =? id')
                 (map (set_scalars id (customerName b) (totalPrice b) (totalCarbonSaved b))
                    (orders s))
               = has_order s id') by (intros; apply has_order_set_scalars).
    destruct (uf_delete f).
    + intros i Hi. unfold has_order. cbn [update_order fst orders order_items] in *.
      rewrite Hsame. apply (Hri i Hi).
    + apply run_items_integrity.
      * unfold has_order. cbn [delete_items update_order fst orders]. rewrite Hsame.
        exact Hput.
      * intros i Hi. unfold has_order.
        cbn [delete_items update_order fst orders order_items] in *.
        rewrite Hsame. apply filter_In in Hi as [Hi _]. apply (Hri i Hi).
  - rewrite fst_remove_order. destruct (df_items f); [exact Hri |].
    destruct (df_order f).
    + intros i Hi. cbn [delete_items order_items] in Hi.
      apply filter_In in Hi as [Hi _]. apply (Hri i Hi).
    + intros i Hi. cbn [delete_order delete_items fst order_items] in Hi.
      apply filter_In in Hi as [Hi Hne]. specialize (Hri i Hi).
      unfold has_order in *. cbn [delete_order delete_items fst orders].
      apply existsb_exists in Hri as [o [Ho He]]. apply existsb_exists.
      exists o. split; [| exact He]. apply filter_In. split; [exact Ho |].
      apply Z.eqb_eq in He. rewrite He. exact Hne.
Qed.

(** The ids of the order rows of a reachable store never pass the largest
    id handed out. *)
Lemma handle_ids_bounded r s : ids_bounded s -> ids_bounded (fst (handle r s)).
Proof.
  intros Hb. destruct r as [f | now iso b f | id f | id b f | id f]; cbn [handle].
  - unfold list_orders. destruct f; exact Hb.
  - rewrite fst_create_order. destruct (cf_insert f); [exact Hb |].
    unfold ids_bounded.
    destruct (run_items_orders (orders_seq s + 1) (items b) (cf_items f)
                (fst (insert_order now (customerName b) (totalPrice b)
                        (totalCarbonSaved b) s))) as [-> ->].
    cbn [insert_order fst orders orders_seq]. intros o Ho.
    apply in_app_or in Ho as [Ho | [Ho | []]].
    + specialize (Hb o Ho). lia.
    + subst o. cbn. lia.
  - unfold read_order. destruct f; exact Hb.
  - rewrite fst_update_order_items. destruct (uf_update f); [exact Hb |]. cbv zeta.
    assert (Hmap : forall o,
               In o (map (set_scalars id (customerName b) (totalPrice b)
                            (totalCarbonSaved b)) (orders s)) ->
               o_id o <= orders_seq s).
    { intros o Ho. apply in_map_iff in Ho as [o' [He Ho']]. subst o.
      specialize (Hb o' Ho'). unfold set_scalars. destruct (o_id o' =? id); exact Hb. }
    destruct (uf_delete f); [exact Hmap |]. unfold ids_bounded.
    destruct (run_items_orders id (items b) (uf_items f)
                (delete_items id (fst (update_order id (customerName b) (totalPrice b)
                                         (totalCarbonSaved b) s)))) as [-> ->].
    exact Hmap.
  - rewrite fst_remove_order. destruct (df_items f); [exact Hb |].
    destruct (df_order f); [exact Hb |].
    intros o Ho. cbn [delete_order delete_items fst orders orders_seq] in *.
    apply filter_In in Ho as [Ho _]. apply (Hb o Ho).
Qed.

Lemma reachable_ids_bounded s : reachable s -> ids_bounded s.
Proof.
  induction 1 as [| r s Hs IH].
  - intros o [].
  - apply handle_ids_bounded. exact IH.
Qed.

(** *** Listing *)

(** Two orders created within one second of [CURRENT_TIMESTAMP] are listed
    with the one created first in front. *)
Lemma same_second_listed_oldest_first :
  let r1 := create_order "2026-01-01 10:00:00" "2026-01-01T10:00:00.100Z"
              alice no_create_faults empty_db in
  let r2 := create_order "2026-01-01 10:00:00" "2026-01-01T10:00:00.600Z"
              alice no_create_faults (fst r1) in
  option_map row_id (data_of (snd r1)) = Some (Some (VInt 1))
  /\ option_map row_id (data_of (snd r2)) = Some (Some (VInt 2))
  /\ map row_id (listed (snd (list_orders None (fst r2))))
     = [Some (VInt 1); Some (VInt 2)].
Proof. cbv zeta. repeat split; reflexivity. Qed.

(** C6, as the handlers have it. The listing holds the stored orders, each
    once, from the latest timestamp to the earliest, each row with its id and,
    when the order has item rows, with one entry of [items] per item row, in
    the order of the join, each entry with the id and the name of its row and
    the numbers of the row that SQLite's JSON keeps; and of two orders created
    one after the other, the second at a later timestamp, the second is listed
    before the first. *)
Theorem listing_newest_first s0 s now1 now2 iso1 iso2 b1 b2 k1 k2 :
  String.ltb now1 now2 = true ->
  (exists rows,
      snd (list_orders None s0)
      = json (VObj [("message", VStr "success");
                    ("data", VArr (map (fun o => parse_items (list_row s0 o)) rows))])
      /\ Permutation rows (orders s0)
      /\ StronglySorted newer_first rows
      /\ forall o,
           row_id (parse_items (list_row s0 o)) = Some (VInt (o_id o))
           /\ (items_of (o_id o) s0 <> [] ->
               exists shown entries,
                 row_items (parse_items (list_row s0 o)) = Some (VArr entries)
                 /\ Permutation shown (items_of (o_id o) s0)
                 /\ Forall2 shows shown entries))
  /\ (let r1 := create_order now1 iso1 b1 (mk_create_faults None (repeat None k1) None) s in
      let r2 := create_order now2 iso2 b2 (mk_create_faults None (repeat None k2) None)
                  (fst r1) in
      exists id1 id2 pre mid post,
        option_map row_id (data_of (snd r1)) = Some (Some (VInt id1))
        /\ option_map row_id (data_of (snd r2)) = Some (Some (VInt id2))
        /\ map row_id (listed (snd (list_orders None (fst r2))))
           = pre ++ Some (VInt id2) :: mid ++ Some (VInt id1) :: post).
Proof.
  intros Hlt. split.
  - exists (order_by_timestamp_desc (orders s0)).
    split; [unfold list_orders, select_orders; rewrite map_map; reflexivity |].
    split; [apply Permutation_sym, order_by_timestamp_desc_perm |].
    split; [apply order_by_timestamp_desc_sorted |].
    intros o. split; [apply row_id_list_row |]. intros Hsome.
    exists (index_order (items_of (o_id o) s0)),
      (map (fun i => json_object (Some i)) (index_order (items_of (o_id o) s0))).
    split; [apply row_items_list_row, Hsome |].
    split; [apply index_order_perm | apply json_objects_show].
  - cbv zeta. rewrite !create_order_no_fault. cbn [fst snd orders orders_seq].
    set (o1 := mk_order (orders_seq s + 1) _ _ _ now1).
    set (o2 := mk_order (orders_seq s + 1 + 1) _ _ _ now2).
    set (s2 := mk_db _ _ _ _).
    destruct (sorted_newer_precedes (order_by_timestamp_desc (orders s2)) o1 o2)
      as [pre [mid [post Hsplit]]].
    + apply order_by_timestamp_desc_sorted.
    + apply (Permutation_in _ (order_by_timestamp_desc_perm _)).
      unfold s2. cbn [orders]. apply in_or_app. left. apply in_or_app. right.
      left. reflexivity.
    + apply (Permutation_in _ (order_by_timestamp_desc_perm _)).
      unfold s2. cbn [orders]. apply in_or_app. right. left. reflexivity.
    + exact Hlt.
    + exists (orders_seq s + 1), (orders_seq s + 1 + 1),
        (map (fun o => Some (VInt (o_id o))) pre),
        (map (fun o => Some (VInt (o_id o))) mid),
        (map (fun o => Some (VInt (o_id o))) post).
      split; [reflexivity |]. split; [reflexivity |].
      unfold list_orders, listed, select_orders.
      cbn [data_of snd json body field get_field String.eqb Ascii.eqb Bool.eqb].
      rewrite !map_map, Hsplit, !map_app. cbn [map]. rewrite !map_app. reflexivity.
Qed.

Lemma listing_newest_first_witness :
  String.ltb "2026-01-01 10:00:00" "2026-01-01 10:00:01" = true
  /\ (exists rows,
      snd (list_orders None one_listed)
      = json (VObj [("message", VStr "success");
                    ("data", VArr (map (fun o => parse_items (list_row one_listed o)) rows))])
      /\ Permutation rows (orders one_listed)
      /\ StronglySorted newer_first rows
      /\ forall o,
           row_id (parse_items (list_row one_listed o)) = Some (VInt (o_id o))
           /\ (items_of (o_id o) one_listed <> [] ->
               exists shown entries,
                 row_items (parse_items (list_row one_listed o)) = Some (VArr entries)
                 /\ Permutation shown (items_of (o_id o) one_listed)
                 /\ Forall2 shows shown entries))
  /\ (let r1 := create_order "2026-01-01 10:00:00" "2026-01-01T10:00:00.100Z" alice
                  (mk_create_faults None (repeat None 0) None) empty_db in
      let r2 := create_order "2026-01-01 10:00:01" "2026-01-01T10:00:01.100Z" alice
                  (mk_create_faults None (repeat None 0) None) (fst r1) in
      exists id1 id2 pre mid post,
        option_map row_id (data_of (snd r1)) = Some (Some (VInt id1))
        /\ option_map row_id (data_of (snd r2)) = Some (Some (VInt id2))
        /\ map row_id (listed (snd (list_orders None (fst r2))))
           = pre ++ Some (VInt id2) :: mid ++ Some (VInt id1) :: post).
Proof.
  split; [reflexivity |].
  apply (listing_newest_first one_listed empty_db
           "2026-01-01 10:00:00" "2026-01-01 10:00:01"
           "2026-01-01T10:00:00.100Z" "2026-01-01T10:00:01.100Z" alice alice 0 0).
  reflexivity.
Defined.

End OrdersFacts.

(** ** Rowids *)

Module NumberingFacts.
Import Js Storage Orders Traces OrdersFacts.
Local Open Scope list_scope.

(** The item inserts leave the store that the inserts of the items without
    fault leave. *)
Lemma run_items_stored id its fs s :
  exists stored,
    fst (run_items id its fs s)
    = fold_left (fun s it => insert_item id it s) stored s.
Proof.
  revert fs s. induction its as [| it its IH]; intros fs s; cbn [run_items].
  - exists []. reflexivity.
  - destruct (hd None fs).
    + cbn [fst]. apply IH.
    + destruct (IH (tl fs) (insert_item id it s)) as [stored Hs].
      exists (it :: stored). cbn [fold_left]. exact Hs.
Qed.

Lemma new_rows_bounds id from its :
  Forall (fun i => from + 1 <= i_id i <= from + Z.of_nat (List.length its))
         (new_rows id from its).
Proof.
  revert from. induction its as [| it its IH]; intros from; cbn [new_rows]; constructor.
  - cbn [i_id List.length]. lia.
  - eapply Forall_impl; [| apply IH]. cbn [List.length]. intros i Hi. cbv beta in *. lia.
Qed.

Lemma new_rows_NoDup id from its : NoDup (map i_id (new_rows id from its)).
Proof.
  revert from. induction its as [| it its IH]; intros from; cbn; constructor.
  - intros Hin. apply in_map_iff in Hin as [i [He Hi]].
    pose proof (new_rows_fresh id (from + 1) its) as Hf.
    rewrite Forall_forall in Hf. destruct (Hf i Hi) as [_ Hlt]. lia.
  - apply IH.
Qed.

(** Deleting rows keeps the rowids of a table distinct. *)
Lemma distinct_after_delete (A : Type) (rowid : A -> Z) (keep : A -> bool)
    (rows : list A) (Hd : NoDup (map rowid rows)) :
  NoDup (map rowid (filter keep rows)).
Proof.
  induction rows as [| row rows IH]; cbn in *; [constructor |].
  apply NoDup_cons_iff in Hd as [Hfresh Hd].
  destruct (keep row); cbn; [constructor |]; try (apply IH; exact Hd).
  intros Hin. apply Hfresh. apply in_map_iff in Hin as [row' [He Hin]].
  apply filter_In in Hin as [Hin _].
  apply in_map_iff. exists row'. split; assumption.
Qed.

Lemma map_o_id_set_scalars id name price carbon l :
  map o_id (map (set_scalars id name price carbon) l) = map o_id l.
Proof.
  induction l as [| o l IH]; cbn; [reflexivity |]. rewrite IH. f_equal.
  unfold set_scalars. destruct (o_id o =? id); reflexivity.
Qed.

Lemma insert_order_well_numbered now name price carbon s :
  well_numbered s -> well_numbered (fst (insert_order now name price carbon s)).
Proof.
  intros (Ho & Hob & Hi & Hib & Hso & Hsi). unfold well_numbered.
  cbn [insert_order fst orders order_items orders_seq items_seq].
  split; [| split; [| split; [| split; [| split]]]];
    try assumption; try lia.
  - rewrite map_app. apply NoDup_app; [exact Ho | repeat constructor; intros [] |].
    intros a Ha [Hb | []]. apply in_map_iff in Ha as [o [He Hin]].
    specialize (Hob o Hin). cbn in Hb. lia.
  - intros o H. apply in_app_or in H as [H | [H | []]];
      [specialize (Hob o H); lia | subst o; cbn; lia].
Qed.

Lemma insert_items_well_numbered id its s :
  well_numbered s ->
  well_numbered (fold_left (fun s it => insert_item id it s) its s).
Proof.
  intros (Ho & Hob & Hi & Hib & Hso & Hsi). rewrite insert_items_rows.
  unfold well_numbered. cbn [orders order_items orders_seq items_seq].
  pose proof (new_rows_bounds id (items_seq s) its) as Hnb.
  rewrite Forall_forall in Hnb.
  split; [| split; [| split; [| split; [| split]]]];
    try assumption; try lia.
  - rewrite map_app. apply NoDup_app; [exact Hi | apply new_rows_NoDup |].
    intros a Ha Hb. apply in_map_iff in Ha as [i [He Hin]].
    apply in_map_iff in Hb as [i' [He' Hin']].
    specialize (Hib i Hin). specialize (Hnb i' Hin'). lia.
  - intros i H. apply in_app_or in H as [H | H]; [specialize (Hib i H); lia |].
    specialize (Hnb i H). lia.
Qed.

Lemma update_order_well_numbered id name price carbon s :
  well_numbered s -> well_numbered (fst (update_order id name price carbon s)).
Proof.
  intros (Ho & Hob & Hi & Hib & Hso & Hsi). unfold well_numbered.
  cbn [update_order fst orders order_items orders_seq items_seq].
  rewrite map_o_id_set_scalars.
  split; [| split; [| split; [| split; [| split]]]]; try assumption.
  intros o H. apply in_map_iff in H as [o' [He Hin]]. subst o.
  specialize (Hob o' Hin). unfold set_scalars. destruct (o_id o' =? id); cbn; lia.
Qed.

Lemma delete_items_well_numbered id s :
  well_numbered s -> well_numbered (delete_items id s).
Proof.
  intros (Ho & Hob & Hi & Hib & Hso & Hsi). unfold well_numbered.
  cbn [delete_items orders order_items orders_seq items_seq].
  split; [| split; [| split; [| split; [| split]]]]; try assumption.
  - apply distinct_after_delete. exact Hi.
  - intros i H. apply filter_In in H as [H _]. apply Hib. exact H.
Qed.

Lemma delete_order_well_numbered id s :
  well_numbered s -> well_numbered (fst (delete_order id s)).
Proof.
  intros (Ho & Hob & Hi & Hib & Hso & Hsi). unfold well_numbered.
  cbn [delete_order fst orders order_items orders_seq items_seq].
  split; [| split; [| split; [| split; [| split]]]]; try assumption.
  - apply distinct_after_delete. exact Ho.
  - intros o H. apply filter_In in H as [H _]. apply Hob. exact H.
Qed.

Lemma handle_well_numbered r s :
  well_numbered s -> well_numbered (fst (handle r s)).
Proof.
  intros Hw. destruct r as [f | now iso b f | id f | id b f | id f]; cbn [handle].
  - unfold list_orders. destruct f; exact Hw.
  - rewrite fst_create_order. destruct (cf_insert f); [exact Hw |].
    destruct (run_items_stored (orders_seq s + 1) (items b) (cf_items f)
                (fst (insert_order now (customerName b) (totalPrice b)
                        (totalCarbonSaved b) s))) as [n ->].
    apply insert_items_well_numbered, insert_order_well_numbered, Hw.
  - unfold read_order. destruct f; exact Hw.
  - rewrite fst_update_order_items. destruct (uf_update f); [exact Hw |]. cbv zeta.
    destruct (uf_delete f); [apply update_order_well_numbered, Hw |].
    destruct (run_items_stored id (items b) (uf_items f)
                (delete_items id
                   (fst (update_order id (customerName b) (totalPrice b)
                           (totalCarbonSaved b) s)))) as [n ->].
    apply insert_items_well_numbered, delete_items_well_numbered,
      update_order_well_numbered, Hw.
  - rewrite fst_remove_order. destruct (df_items f); [exact Hw |].
    destruct (df_order f); [apply delete_items_well_numbered, Hw |].
    apply delete_order_well_numbered, delete_items_well_numbered, Hw.
Qed.

Lemma empty_well_numbered : well_numbered empty_db.
Proof.
  unfold well_numbered. cbn.
  split; [| split; [| split; [| split; [| split]]]];
    try constructor; try lia; intros ? [].
Qed.

Lemma run_well_numbered rs s : well_numbered s -> well_numbered (run rs s).
Proof.
  revert s. induction rs as [| r rs IH]; intros s Hw; cbn [run]; [exact Hw |].
  apply IH, handle_well_numbered, Hw.
Qed.

Lemma reachable_run s : reachable s <-> exists rs, s = run rs empty_db.
Proof.
  split.
  - induction 1 as [| r s Hs [rs IH]].
    + exists []. reflexivity.
    + exists (rs ++ [r]). subst s. clear Hs. generalize empty_db as s0.
      induction rs as [| r' rs IHrs]; intros s0; cbn [app run]; [reflexivity |].
      apply IHrs.
  - intros [rs ->]. assert (H : forall s0, reachable s0 -> reachable (run rs s0)).
    { induction rs as [| r rs IH]; intros s0 Hs0; cbn [run]; [exact Hs0 |].
      apply IH, reachable_step, Hs0. }
    apply H, reachable_empty.
Qed.

End NumberingFacts.

(** ** More on the order repository *)

Module RepositoryFacts.
Import Js Storage Orders Traces OrdersFacts NumberingFacts.
Local Open Scope list_scope.

Lemma reachable_is_well_numbered s : reachable s -> well_numbered s.
Proof.
  induction 1 as [| r s Hs IH]; [apply empty_well_numbered |].
  apply handle_well_numbered, IH.
Qed.

Lemma one_order_reachable : reachable one_order.
Proof.
  apply (reachable_step
           (PostOrder "2026-01-01 10:00:00" "2026-01-01T10:00:00.000Z" alice
              no_create_faults) empty_db), reachable_empty.
Qed.

(** In every store the server can reach, the ids of the order rows are
    distinct and positive, and so are the ids of the item rows. *)
Theorem rowids_distinct s :
  reachable s ->
  NoDup (map o_id (orders s))
  /\ (forall o, In o (orders s) -> 1 <= o_id o)
  /\ NoDup (map i_id (order_items s))
  /\ (forall i, In i (order_items s) -> 1 <= i_id i).
Proof.
  intros Hr. destruct (reachable_is_well_numbered s Hr) as (Ho & Hob & Hi & Hib & _).
  split; [exact Ho |]. split; [intros o H; apply Hob, H |].
  split; [exact Hi |]. intros i H. apply Hib, H.
Qed.

Lemma rowids_distinct_witness :
  reachable one_order
  /\ NoDup (map o_id (orders one_order))
  /\ (forall o, In o (orders one_order) -> 1 <= o_id o)
  /\ NoDup (map i_id (order_items one_order))
  /\ (forall i, In i (order_items one_order) -> 1 <= i_id i).
Proof.
  split; [exact one_order_reachable |].
  exact (rowids_distinct one_order one_order_reachable).
Defined.

(** *** Ids are not handed out twice *)

Lemma handle_orders_seq_mono r s : orders_seq s <= orders_seq (fst (handle r s)).
Proof.
  destruct r as [f | now iso b f | id f | id b f | id f]; cbn [handle].
  - unfold list_orders. destruct f; cbn; lia.
  - rewrite fst_create_order. destruct (cf_insert f); [lia |].
    destruct (run_items_orders (orders_seq s + 1) (items b) (cf_items f)
                (fst (insert_order now (customerName b) (totalPrice b)
                        (totalCarbonSaved b) s))) as [_ ->].
    cbn. lia.
  - unfold read_order. destruct f; cbn; lia.
  - rewrite fst_update_order_items. destruct (uf_update f); [lia |]. cbv zeta.
    destruct (uf_delete f); [cbn; lia |].
    destruct (run_items_orders id (items b) (uf_items f)
                (delete_items id
                   (fst (update_order id (customerName b) (totalPrice b)
                           (totalCarbonSaved b) s)))) as [_ ->].
    cbn. lia.
  - rewrite fst_remove_order. destruct (df_items f); [lia |].
    destruct (df_order f); cbn; lia.
Qed.

Lemma run_orders_seq_mono rs s : orders_seq s <= orders_seq (run rs s).
Proof.
  revert s. induction rs as [| r rs IH]; intros s; cbn [run]; [lia |].
  pose proof (handle_orders_seq_mono r s). specialize (IH (fst (handle r s))). lia.
Qed.

Lemma well_numbered_no_next s :
  well_numbered s -> has_order s (orders_seq s + 1) = false.
Proof.
  intros (_ & Hob & _). unfold has_order.
  destruct (existsb _ (orders s)) eqn:He; [| reflexivity].
  apply existsb_exists in He as [o [Hin Hid]]. apply Z.eqb_eq in Hid.
  specialize (Hob o Hin). lia.
Qed.

(** The id a create returns was never the id of an order before: whatever
    requests came between, it is larger than every id handed out earlier
    (also of orders deleted since), no order row has it when the create starts,
    and the created order row has it afterwards. *)
Theorem created_id_is_new s rs now iso b k :
  well_numbered s ->
  let s1 := run rs s in
  let r := create_order now iso b (mk_create_faults None (repeat None k) None) s1 in
  let id := orders_seq s1 + 1 in
  option_map row_id (data_of (snd r)) = Some (Some (VInt id))
  /\ (forall id0, id0 <= orders_seq s -> id0 < id)
  /\ (forall o, In o (orders s) -> o_id o < id)
  /\ has_order s1 id = false
  /\ has_order (fst r) id = true.
Proof.
  intros Hw. cbv zeta. rewrite create_order_no_fault. cbn [fst snd].
  pose proof (run_orders_seq_mono rs s) as Hmono.
  split; [reflexivity |]. split; [intros id0 H0; lia |].
  split; [intros o Ho; destruct Hw as (_ & Hob & _); specialize (Hob o Ho); lia |].
  split; [apply well_numbered_no_next, run_well_numbered, Hw |].
  unfold has_order. cbn [orders]. rewrite existsb_app. cbn. rewrite Z.eqb_refl.
  apply orb_true_r.
Qed.

Lemma created_id_is_new_witness :
  well_numbered one_order
  /\ let s1 := run [DeleteOrder 1 no_delete_faults] one_order in
     let r := create_order "2026-01-01 10:00:05" "2026-01-01T10:00:05.000Z" bob
                (mk_create_faults None (repeat None 0) None) s1 in
     let id := orders_seq s1 + 1 in
     option_map row_id (data_of (snd r)) = Some (Some (VInt id))
     /\ (forall id0, id0 <= orders_seq one_order -> id0 < id)
     /\ (forall o, In o (orders one_order) -> o_id o < id)
     /\ has_order s1 id = false
     /\ has_order (fst r) id = true.
Proof.
  pose proof (reachable_is_well_numbered one_order one_order_reachable) as Hw.
  split; [exact Hw |].
  exact (created_id_is_new one_order [DeleteOrder 1 no_delete_faults]
           "2026-01-01 10:00:05" "2026-01-01T10:00:05.000Z" bob 0 Hw).
Defined.

(** *** What [changes] tells *)

Lemma count_by_id id l :
  NoDup (map o_id l) ->
  Z.of_nat (List.length (filter (fun o => o_id o =? id) l))
  = if existsb (fun o => o_id o =? id) l then 1 else 0.
Proof.
  induction l as [| o l IH]; cbn; intros Hnd; [reflexivity |].
  apply NoDup_cons_iff in Hnd as [Hnin Hnd]. specialize (IH Hnd).
  destruct (Z.eqb_spec (o_id o) id) as [He | He]; cbn [orb List.length].
  - destruct (existsb (fun o0 => o_id o0 =? id) l) eqn:Hex.
    + exfalso. apply Hnin. apply existsb_exists in Hex as [o' [Hin Hid]].
      apply Z.eqb_eq in Hid. apply in_map_iff. exists o'. split; [lia | exact Hin].
    + lia.
  - exact IH.
Qed.

(** In a store with distinct order ids, an update and a delete that meet no
    storage failure answer [changes: 1] when the id has an order row and
    [changes: 0] when it has none. *)
Theorem changes_tell_existence s id b k :
  well_numbered s ->
  changes_of (snd (update_order_items id b
                     (mk_update_faults None None (repeat None k) None) s))
  = Some (VInt (if has_order s id then 1 else 0))
  /\ changes_of (snd (remove_order id no_delete_faults s))
     = Some (VInt (if has_order s id then 1 else 0)).
Proof.
  intros (Ho & _). split.
  - unfold update_order_items.
    cbn [uf_update uf_delete uf_items uf_finalize update_order].
    rewrite run_items_no_fault. cbn [snd changes_of json body field get_field].
    cbn. rewrite (count_by_id id (orders s) Ho). reflexivity.
  - unfold remove_order, no_delete_faults. cbn [df_items df_order delete_order].
    cbn. rewrite (count_by_id id (orders s) Ho). reflexivity.
Qed.

Lemma changes_tell_existence_witness :
  well_numbered one_order
  /\ changes_of (snd (update_order_items 1 bob
                        (mk_update_faults None None (repeat None 0) None) one_order))
     = Some (VInt (if has_order one_order 1 then 1 else 0))
  /\ changes_of (snd (remove_order 1 no_delete_faults one_order))
     = Some (VInt (if has_order one_order 1 then 1 else 0)).
Proof.
  pose proof (reachable_is_well_numbered one_order one_order_reachable) as Hw.
  split; [exact Hw |]. exact (changes_tell_existence one_order 1 bob 0 Hw).
Defined.

(** *** Deleting *)

Lemma filter_idem {A : Type} (p : A -> bool) (l : list A) :
  filter p (filter p l) = filter p l.
Proof.
  induction l as [| a l IH]; cbn; [reflexivity |].
  destruct (p a) eqn:Hp; cbn; [rewrite Hp, IH |]; auto.
Qed.

Lemma filter_neg_pos {A : Type} (p : A -> bool) (l : list A) :
  filter p (filter (fun x => negb (p x)) l) = [].
Proof.
  induction l as [| a l IH]; cbn; [reflexivity |].
  destruct (p a) eqn:Hp; cbn; [| rewrite Hp]; exact IH.
Qed.

Lemma filter_other_id {A : Type} (key : A -> Z) (id id' : Z) (l : list A) :
  id' <> id ->
  filter (fun x => key x =? id') (filter (fun x => negb (key x =? id)) l)
  = filter (fun x => key x =? id') l.
Proof.
  intros Hne. induction l as [| a l IH]; cbn; [reflexivity |].
  destruct (Z.eqb_spec (key a) id) as [He | He]; cbn.
  - destruct (Z.eqb_spec (key a) id'); [congruence | exact IH].
  - destruct (key a =? id'); [rewrite IH |]; auto.
Qed.

(** The row a query shows for an order depends on the store through the
    item rows of that order only. *)
Lemma select_row_ext s s' o :
  items_of (o_id o) s' = items_of (o_id o) s -> select_row s' o = select_row s o.
Proof. intros H. unfold select_row, left_join. rewrite H. reflexivity. Qed.

Lemma list_row_ext s s' o :
  items_of (o_id o) s' = items_of (o_id o) s -> list_row s' o = list_row s o.
Proof. intros H. unfold list_row, left_join_indexed. rewrite H. reflexivity. Qed.

Lemma select_order_ext s s' id :
  filter (fun o => o_id o =? id) (orders s') = filter (fun o => o_id o =? id) (orders s) ->
  items_of id s' = items_of id s ->
  select_order id s' = select_order id s.
Proof.
  intros Ho Hi. unfold select_order. rewrite Ho.
  destruct (filter (fun o => o_id o =? id) (orders s)) as [| o l] eqn:Hf; [reflexivity |].
  assert (Hid : o_id o = id).
  { assert (Hin : In o (filter (fun o => o_id o =? id) (orders s)))
      by (rewrite Hf; left; reflexivity).
    apply filter_In in Hin as [_ Hin]. apply Z.eqb_eq. exact Hin. }
  apply select_row_ext. rewrite Hid. exact Hi.
Qed.

Lemma listed_rows s row :
  In row (listed (snd (list_orders None s))) ->
  exists o, In o (orders s) /\ row = parse_items (list_row s o).
Proof.
  unfold list_orders, listed, select_orders.
  cbn [snd data_of json body field get_field String.eqb Ascii.eqb Bool.eqb].
  rewrite map_map. intros Hin. apply in_map_iff in Hin as [o [He Hin]].
  exists o. split; [| symmetry; exact He].
  apply (Permutation.Permutation_in _
           (Permutation.Permutation_sym (SortFacts.order_by_timestamp_desc_perm _))).
  exact Hin.
Qed.

Lemma remove_order_no_fault id s :
  remove_order id no_delete_faults s
  = (mk_db (filter (fun o => negb (o_id o =? id)) (orders s))
           (filter (fun i => negb (i_orderId i =? id)) (order_items s))
           (orders_seq s) (items_seq s),
     json (VObj [("message", VStr "deleted");
                 ("changes",
                  VInt (Z.of_nat (List.length (filter (fun o => o_id o =? id)
                                                 (orders s)))))])).
Proof. reflexivity. Qed.

(** After a delete that meets no storage failure the id has neither order
    row nor item rows: reading it gives no data, the listing has no row with
    that id, reading any other id gives what it gave before, and deleting the
    id again changes nothing and answers [changes: 0]. *)
Theorem delete_then_read s id :
  let r := remove_order id no_delete_faults s in
  let s' := fst r in
  status_of (snd r) = Some 200
  /\ has_order s' id = false
  /\ items_of id s' = []
  /\ read_order id None s'
     = (s', json (VObj [("message", VStr "success"); ("data", VUndefined)]))
  /\ (forall row, In row (listed (snd (list_orders None s'))) ->
                  row_id row <> Some (VInt id))
  /\ (forall id', id' <> id ->
                  snd (read_order id' None s') = snd (read_order id' None s))
  /\ remove_order id no_delete_faults s'
     = (s', json (VObj [("message", VStr "deleted"); ("changes", VInt 0)])).
Proof.
  cbv zeta. rewrite (remove_order_no_fault id s). cbn [fst snd].
  set (s' := mk_db _ _ _ _).
  assert (Hno : has_order s' id = false).
  { unfold has_order, s'. cbn [orders].
    destruct (existsb _ _) eqn:He; [| reflexivity].
    apply existsb_exists in He as [o [Hin Hid]]. apply filter_In in Hin as [_ Hne].
    rewrite Hid in Hne. discriminate. }
  split; [reflexivity |]. split; [exact Hno |].
  split; [unfold items_of, s'; cbn [order_items];
          apply (filter_neg_pos (fun i => i_orderId i =? id)) |].
  split; [apply read_missing_order; exact Hno |]. split; [| split].
  - intros row Hin Hid. apply listed_rows in Hin as [o [Ho ->]].
    rewrite row_id_list_row in Hid. injection Hid as Hid.
    unfold s' in Ho. cbn [orders] in Ho. apply filter_In in Ho as [_ Hne].
    rewrite Hid, Z.eqb_refl in Hne. discriminate.
  - intros id' Hne. unfold read_order. cbn [snd].
    rewrite (select_order_ext s s' id'); [reflexivity | |].
    + unfold s'. cbn [orders]. apply (filter_other_id o_id). exact Hne.
    + unfold items_of, s'. cbn [order_items]. apply (filter_other_id i_orderId). exact Hne.
  - rewrite (remove_order_no_fault id s').
    unfold s'. cbn [orders order_items orders_seq items_seq].
    rewrite (filter_idem (fun i => negb (i_orderId i =? id))).
    rewrite (filter_idem (fun o => negb (o_id o =? id))).
    rewrite (filter_neg_pos (fun o => o_id o =? id)). reflexivity.
Qed.

(** *** Updating *)




Lemma has_order_first s id :
  has_order s id = true ->
  exists o l, filter (fun o => o_id o =? id) (orders s) = o :: l /\ o_id o = id.
Proof.
  unfold has_order. intros H. apply existsb_exists in H as [o [Hin Hid]].
  destruct (filter (fun o => o_id o =? id) (orders s)) as [| o' l] eqn:Hf.
  - assert (Hin' : In o (filter (fun o => o_id o =? id) (orders s)))
      by (apply filter_In; split; assumption).
    rewrite Hf in Hin'. destruct Hin'.
  - exists o', l. split; [reflexivity |].
    assert (Hin' : In o' (filter (fun o => o_id o =? id) (orders s)))
      by (rewrite Hf; left; reflexivity).
    apply filter_In in Hin' as [_ H']. apply Z.eqb_eq. exact H'.
Qed.



(** *** Reading and listing agree *)

(** With distinct ids, two order rows of the same id are one row. *)
Lemma same_id_same_row (rows : list order_row) (o o' : order_row)
    (Hd : NoDup (map o_id rows)) (Ho : In o rows) (Ho' : In o' rows)
    (He : o_id o = o_id o') :
  o = o'.
Proof.
  induction rows as [| row rows IH]; cbn in *; [destruct Ho |].
  apply NoDup_cons_iff in Hd as [Hfresh Hd].
  destruct Ho as [-> | Ho], Ho' as [-> | Ho']; auto.
  - exfalso. apply Hfresh. rewrite He. apply in_map. exact Ho'.
  - exfalso. apply Hfresh. rewrite <- He. apply in_map. exact Ho.
Qed.

Lemma left_join_indexed_perm o s :
  Permutation.Permutation (left_join_indexed o s) (left_join o s).
Proof.
  unfold left_join_indexed, left_join.
  pose proof (SortFacts.index_order_perm (items_of (o_id o) s)) as Hp.
  destruct (items_of (o_id o) s) as [| i l] eqn:Hi.
  - cbn. apply Permutation.Permutation_refl.
  - destruct (index_order (i :: l)) as [| i' l'] eqn:Hs.
    + apply Permutation.Permutation_nil in Hp. discriminate.
    + apply (Permutation.Permutation_map Some) in Hp. exact Hp.
Qed.

(** In a store with distinct order ids, the listing has exactly one row with
    the id of an existing order; it has the id, the name, the totals and the
    timestamp that reading the id gives, and as [items] the entries that
    reading the id gives, possibly in another order. *)
Theorem read_matches_list s id :
  well_numbered s -> has_order s id = true ->
  exists row row',
    data_of (snd (read_order id None s)) = Some row
    /\ In row' (listed (snd (list_orders None s)))
    /\ (forall r, In r (listed (snd (list_orders None s))) ->
                  row_id r = Some (VInt id) -> r = row')
    /\ row_id row = Some (VInt id)
    /\ row_id row' = Some (VInt id)
    /\ field "customerName" row' = field "customerName" row
    /\ field "totalPrice" row' = field "totalPrice" row
    /\ field "totalCarbonSaved" row' = field "totalCarbonSaved" row
    /\ field "timestamp" row' = field "timestamp" row
    /\ exists entries entries',
         row_items row = Some (VArr entries)
         /\ row_items row' = Some (VArr entries')
         /\ Permutation.Permutation entries' entries.
Proof.
  intros (Ho & _) Hhas. destruct (has_order_first s id Hhas) as [o [l [Hf Hid]]].
  assert (Hin : In o (orders s)).
  { assert (H : In o (filter (fun o => o_id o =? id) (orders s)))
      by (rewrite Hf; left; reflexivity).
    apply filter_In in H as [H _]. exact H. }
  exists (parse_items (select_row s o)), (parse_items (list_row s o)).
  split; [unfold read_order, select_order; rewrite Hf; reflexivity |].
  split.
  { unfold list_orders, listed, select_orders.
    cbn [snd data_of json body field get_field String.eqb Ascii.eqb Bool.eqb].
    rewrite map_map. apply in_map_iff. exists o. split; [reflexivity |].
    apply (Permutation.Permutation_in _ (SortFacts.order_by_timestamp_desc_perm _)).
    exact Hin. }
  split.
  { intros row' Hin' Hid'. apply listed_rows in Hin' as [o' [Ho' ->]].
    rewrite row_id_list_row in Hid'. injection Hid' as Hid'.
    rewrite (same_id_same_row (orders s) o' o Ho Ho' Hin); [reflexivity | lia]. }
  split; [rewrite row_id_select_row, Hid; reflexivity |].
  split; [rewrite row_id_list_row, Hid; reflexivity |].
  split; [reflexivity |]. split; [reflexivity |]. split; [reflexivity |].
  split; [reflexivity |].
  exists (map json_object (left_join o s)), (map json_object (left_join_indexed o s)).
  split; [reflexivity |]. split; [reflexivity |].
  apply Permutation.Permutation_map, left_join_indexed_perm.
Qed.

Lemma read_matches_list_witness :
  well_numbered one_listed
  /\ has_order one_listed 1 = true
  /\ exists row row',
       data_of (snd (read_order 1 None one_listed)) = Some row
       /\ In row' (listed (snd (list_orders None one_listed)))
       /\ (forall r, In r (listed (snd (list_orders None one_listed))) ->
                     row_id r = Some (VInt 1) -> r = row')
       /\ row_id row = Some (VInt 1)
       /\ row_id row' = Some (VInt 1)
       /\ field "customerName" row' = field "customerName" row
       /\ field "totalPrice" row' = field "totalPrice" row
       /\ field "totalCarbonSaved" row' = field "totalCarbonSaved" row
       /\ field "timestamp" row' = field "timestamp" row
       /\ exists entries entries',
            row_items row = Some (VArr entries)
            /\ row_items row' = Some (VArr entries')
            /\ Permutation.Permutation entries' entries.
Proof.
  assert (Hw : well_numbered one_listed).
  { unfold well_numbered, one_listed. cbn.
    split; [repeat constructor; intros [] |].
    split; [intros o [<- | []]; cbn; lia |].
    split; [repeat constructor; cbn; intuition discriminate |].
    split; [intros i [<- | [<- | []]]; cbn; lia |]. lia. }
  assert (Hhas : has_order one_listed 1 = true) by reflexivity.
  split; [exact Hw |]. split; [exact Hhas |].
  exact (read_matches_list one_listed 1 Hw Hhas).
Defined.

(** *** Creating and the listing *)

Lemma listed_perm s :
  Permutation.Permutation
    (listed (snd (list_orders None s)))
    (map (fun o => parse_items (list_row s o)) (orders s)).
Proof.
  unfold list_orders, listed, select_orders.
  cbn [snd data_of json body field get_field String.eqb Ascii.eqb Bool.eqb].
  rewrite map_map. apply Permutation.Permutation_map.
  apply Permutation.Permutation_sym, SortFacts.order_by_timestamp_desc_perm.
Qed.

(** In a store with distinct, bounded order ids, a create that meets no
    storage failure adds one row to the listing, with the new id, the name and
    the totals of the request and the timestamp of the insert, and leaves every
    other row of the listing as it was. *)
Theorem create_adds_one_listing_row s now iso b k :
  well_numbered s ->
  let r := create_order now iso b (mk_create_faults None (repeat None k) None) s in
  exists row,
    Permutation.Permutation
      (listed (snd (list_orders None (fst r))))
      (row :: listed (snd (list_orders None s)))
    /\ row_id row = Some (VInt (orders_seq s + 1))
    /\ field "customerName" row = Some (VStr (customerName b))
    /\ field "totalPrice" row = Some (VNum (totalPrice b))
    /\ field "totalCarbonSaved" row = Some (VNum (totalCarbonSaved b))
    /\ field "timestamp" row = Some (VStr now).
Proof.
  intros (_ & Hob & _). cbv zeta. rewrite create_order_no_fault. cbn [fst].
  set (o := mk_order _ _ _ _ _). set (s' := mk_db _ _ _ _).
  exists (parse_items (list_row s' o)).
  split; [| repeat split; reflexivity].
  eapply Permutation.perm_trans; [apply listed_perm |].
  unfold s' at 2. cbn [orders]. rewrite map_app. cbn [map].
  eapply Permutation.perm_trans;
    [apply Permutation.Permutation_sym, Permutation.Permutation_cons_append |].
  apply Permutation.perm_skip.
  eapply Permutation.perm_trans;
    [| apply Permutation.Permutation_sym, listed_perm].
  rewrite (map_ext_in (fun o0 => parse_items (list_row s' o0))
             (fun o0 => parse_items (list_row s o0))); [apply Permutation.Permutation_refl |].
  intros o0 Hin. f_equal. apply list_row_ext.
  unfold items_of, s'. cbn [order_items]. rewrite filter_app.
  rewrite (filter_new_rows_other (orders_seq s + 1) (o_id o0));
    [apply app_nil_r |].
  specialize (Hob o0 Hin). lia.
Qed.

Lemma create_adds_one_listing_row_witness :
  well_numbered one_order
  /\ let r := create_order "2026-01-01 10:00:05" "2026-01-01T10:00:05.000Z" bob
                (mk_create_faults None (repeat None 0) None) one_order in
     exists row,
       Permutation.Permutation
         (listed (snd (list_orders None (fst r))))
         (row :: listed (snd (list_orders None one_order)))
       /\ row_id row = Some (VInt (orders_seq one_order + 1))
       /\ field "customerName" row = Some (VStr (customerName bob))
       /\ field "totalPrice" row = Some (VNum (totalPrice bob))
       /\ field "totalCarbonSaved" row = Some (VNum (totalCarbonSaved bob))
       /\ field "timestamp" row = Some (VStr "2026-01-01 10:00:05").
Proof.
  pose proof (reachable_is_well_numbered one_order one_order_reachable) as Hw.
  split; [exact Hw |].
  exact (create_adds_one_listing_row one_order "2026-01-01 10:00:05"
           "2026-01-01T10:00:05.000Z" bob 0 Hw).
Defined.

(** *** Storage failures between two writes *)

(** Failures in the middle leave a mixed state. When the item [DELETE] of an
    update fails, the answer is 400, the order rows of the id already carry
    the new name and totals, and the item rows are the old ones. When the
    order [DELETE] of a delete fails, the answer is 400, the order rows are
    all still there, and the items of the id are gone. *)
Theorem middle_failure_leaves_mixed_state s id b m fi ff :
  let r := update_order_items id b (mk_update_faults None (Some m) fi ff) s in
  let r' := remove_order id (mk_delete_faults None (Some m)) s in
  snd r = status_json 400 (error_body m)
  /\ order_items (fst r) = order_items s
  /\ map o_id (orders (fst r)) = map o_id (orders s)
  /\ (forall o, In o (orders (fst r)) -> o_id o = id ->
                o_customerName o = customerName b
                /\ o_totalPrice o = totalPrice b
                /\ o_totalCarbonSaved o = totalCarbonSaved b)
  /\ snd r' = status_json 400 (error_body m)
  /\ orders (fst r') = orders s
  /\ items_of id (fst r') = [].
Proof.
  cbv zeta. unfold update_order_items, remove_order.
  cbn [uf_update uf_delete df_items df_order update_order fst snd orders order_items
       delete_items].
  split; [reflexivity |]. split; [reflexivity |].
  split; [apply map_o_id_set_scalars |]. split; [| split; [reflexivity |]].
  - intros o Hin Hid. apply in_map_iff in Hin as [o' [He Hin]]. subst o.
    unfold set_scalars in *. destruct (o_id o' =? id) eqn:Hq; cbn; [auto |].
    apply Z.eqb_neq in Hq. contradiction.
  - split; [reflexivity |]. unfold items_of. cbn [order_items].
    apply (filter_neg_pos (fun i => i_orderId i =? id)).
Qed.

(** *** Two properties of the first part, at a store *)

Lemma integrity_preserved_witness :
  referential_integrity one_order
  /\ (forall id b f,
        PutOrder 1 bob first_item_fails = PutOrder id b f -> has_order one_order id = true)
  /\ referential_integrity (fst (handle (PutOrder 1 bob first_item_fails) one_order)).
Proof.
  assert (Hri : referential_integrity one_order).
  { intros i [<- | []]. reflexivity. }
  assert (Hput : forall id b f,
             PutOrder 1 bob first_item_fails = PutOrder id b f ->
             has_order one_order id = true).
  { intros id b f He. injection He as <- _ _. reflexivity. }
  split; [exact Hri |]. split; [exact Hput |].
  exact (integrity_preserved (PutOrder 1 bob first_item_fails) one_order Hri Hput).
Defined.

Lemma create_then_read_witness :
  ids_bounded empty_db
  /\ referential_integrity empty_db
  /\ items alice <> []
  /\ Forall numbers_kept (items alice)
  /\ let r := create_order "2026-01-01 10:00:00" "2026-01-01T10:00:00.000Z" alice
                (mk_create_faults None (repeat None 0) None) empty_db in
     option_map row_id (data_of (snd r)) = Some (Some (VInt (orders_seq empty_db + 1)))
     /\ exists entries,
          option_map row_items
            (data_of (snd (read_order (orders_seq empty_db + 1) None (fst r))))
          = Some (Some (VArr entries))
          /\ Forall2 shows_supplied (items alice) entries.
Proof.
  assert (Hb : ids_bounded empty_db) by (intros o []).
  assert (Hri : referential_integrity empty_db) by (intros i []).
  assert (Hne : items alice <> []) by discriminate.
  assert (Hkept : Forall numbers_kept (items alice))
    by (repeat constructor; vm_compute; reflexivity).
  split; [exact Hb |]. split; [exact Hri |]. split; [exact Hne |].
  split; [exact Hkept |].
  exact (create_then_read "2026-01-01 10:00:00" "2026-01-01T10:00:00.000Z" alice 0
           empty_db Hb Hri Hne Hkept).
Defined.

End RepositoryFacts.

(** ** More on the AI proxy *)

Module ProxyFacts.
Import Js Binary64 Prompts Health EstimateText JsFacts Binary64Facts PromptsFacts.

(** The status of [/api/prompts] is 200 or 500, and it is 500 exactly when a
    valid key is configured, the provider call fails, and the prompt contains
    neither marker. *)
Theorem prompts_status key prompt random provider :
  let r := prompts key prompt random provider in
  (status r = 200 \/ status r = 500)
  /\ (status r = 500 <->
      no_valid_key key = false
      /\ (exists m, provider = Throws m)
      /\ includes prompt estimate_marker = false
      /\ includes prompt suggestions_marker = false).
Proof.
  cbv zeta. unfold prompts, fallback_without_key, fallback_on_error.
  destruct (no_valid_key key); [| destruct provider as [text | m]];
    destruct (includes prompt estimate_marker);
    destruct (includes prompt suggestions_marker); cbn [status];
    (split; [auto |]); split;
    try discriminate; try (intros (? & ? & ? & ?); discriminate);
    try (intros (_ & [m' Hm] & _); discriminate Hm).
  - intros _. repeat split. exists m. reflexivity.
  - intros _. reflexivity.
Qed.

(** Without a valid key the provider is not consulted: the answer has status
    200 whatever the provider would do; and a prompt without the estimate
    marker gets the advice when it contains the suggestions marker and the
    apology otherwise, whatever [Math.random()] would yield. *)
Theorem without_key_provider_unused key prompt random random' provider provider' :
  no_valid_key key = true ->
  prompts key prompt random provider = prompts key prompt random provider'
  /\ status (prompts key prompt random provider) = 200
  /\ (includes prompt estimate_marker = false ->
      prompts key prompt random provider
      = mk_response 200
          (VObj [("response",
                  VStr (if includes prompt suggestions_marker then advice else apology))])
      /\ prompts key prompt random' provider' = prompts key prompt random provider).
Proof.
  intros Hkey. unfold prompts. rewrite Hkey. unfold fallback_without_key.
  split; [reflexivity |]. split.
  - destruct (includes prompt estimate_marker);
      [| destruct (includes prompt suggestions_marker)]; reflexivity.
  - intros ->. destruct (includes prompt suggestions_marker); split; reflexivity.
Qed.

Lemma without_key_provider_unused_witness :
  no_valid_key (Some "your-fallback-key-here") = true
  /\ prompts (Some "your-fallback-key-here") "any suggestions to reduce carbon footprint?"
       0 (Text "") 
     = prompts (Some "your-fallback-key-here") "any suggestions to reduce carbon footprint?"
         0 (Throws "")
  /\ status (prompts (Some "your-fallback-key-here")
               "any suggestions to reduce carbon footprint?" 0 (Text "")) = 200
  /\ (includes "any suggestions to reduce carbon footprint?" estimate_marker = false ->
      prompts (Some "your-fallback-key-here")
        "any suggestions to reduce carbon footprint?" 0 (Text "")
      = mk_response 200
          (VObj [("response",
                  VStr (if includes "any suggestions to reduce carbon footprint?"
                             suggestions_marker then advice else apology))])
      /\ prompts (Some "your-fallback-key-here")
           "any suggestions to reduce carbon footprint?" 1 (Throws "")
         = prompts (Some "your-fallback-key-here")
             "any suggestions to reduce carbon footprint?" 0 (Text "")).
Proof.
  assert (Hkey : no_valid_key (Some "your-fallback-key-here") = true) by reflexivity.
  split; [exact Hkey |].
  exact (without_key_provider_unused (Some "your-fallback-key-here")
           "any suggestions to reduce carbon footprint?" 0 1 (Text "") (Throws "") Hkey).
Defined.

Lemma read_decimal_apology : read_decimal apology = None.
Proof. vm_compute. reflexivity. Qed.

(** Without a valid key, the answer is the numeric estimate exactly when
    "Estimate the carbon footprint" occurs somewhere in the prompt. *)
Theorem estimate_iff_marker_occurs key prompt random provider :
  no_valid_key key = true -> is_random random ->
  (response_text (prompts key prompt random provider)
   = Some (toFixed 2 (fallbackEstimate random))
   <-> exists pre post, prompt = pre ++ "Estimate the carbon footprint" ++ post).
Proof.
  intros Hkey Hr. rewrite <- (includes_occurs prompt "Estimate the carbon footprint").
  fold estimate_marker. unfold prompts. rewrite Hkey. unfold fallback_without_key.
  pose proof (read_decimal_place_point _
                (nearest_scaled_range _ (fallbackEstimate_range random Hr))) as Hread.
  fold (toFixed 2 (fallbackEstimate random)) in Hread.
  remember (toFixed 2 (fallbackEstimate random)) as t eqn:Ht. clear Ht.
  destruct (includes prompt estimate_marker).
  - split; reflexivity.
  - split; [| discriminate].
    destruct (includes prompt suggestions_marker); cbn; intros H;
      injection H as H; rewrite <- H in Hread;
      [rewrite read_decimal_advice in Hread | rewrite read_decimal_apology in Hread];
      discriminate.
Qed.

Lemma estimate_iff_marker_occurs_witness :
  no_valid_key None = true
  /\ is_random 0
  /\ (response_text (prompts None "Estimate the carbon footprint" 0 (Text ""))
      = Some (toFixed 2 (fallbackEstimate 0))
      <-> exists pre post,
            "Estimate the carbon footprint"
            = pre ++ "Estimate the carbon footprint" ++ post).
Proof.
  assert (Hkey : no_valid_key None = true) by reflexivity.
  assert (Hr : is_random 0)
    by (split; [apply Z.leb_le | apply Z.ltb_lt]; vm_compute; reflexivity).
  split; [exact Hkey |]. split; [exact Hr |].
  exact (estimate_iff_marker_occurs None "Estimate the carbon footprint" 0 (Text "")
           Hkey Hr).
Defined.

Lemma hundredths_are_well_shaped : hundredths_well_shaped = true.
Proof. vm_compute. reflexivity. Qed.

(** The estimate is always written with four characters: a digit from 0 to 5,
    a point, and two digits; this is the text of the answer to a prompt with
    the estimate marker, without a valid key and when the provider fails. *)
Theorem estimate_text_shape key prompt random provider message :
  is_random random ->
  includes prompt estimate_marker = true ->
  well_shaped (toFixed 2 (fallbackEstimate random)) = true
  /\ (no_valid_key key = true ->
      response_text (prompts key prompt random provider)
      = Some (toFixed 2 (fallbackEstimate random)))
  /\ (no_valid_key key = false ->
      response_text (prompts key prompt random (Throws message))
      = Some (toFixed 2 (fallbackEstimate random))).
Proof.
  intros Hr Hest. split.
  - pose proof (nearest_scaled_range _ (fallbackEstimate_range random Hr)) as Hn.
    pose proof hundredths_are_well_shaped as Hall. unfold hundredths_well_shaped in Hall.
    rewrite forallb_forall in Hall. apply (Hall _ (in_hundredths _ Hn)).
  - unfold prompts, fallback_without_key, fallback_on_error. rewrite Hest.
    split; intros ->; reflexivity.
Qed.

Lemma estimate_text_shape_witness :
  is_random (scale - 1)
  /\ includes "Estimate the carbon footprint" estimate_marker = true
  /\ well_shaped (toFixed 2 (fallbackEstimate (scale - 1))) = true
  /\ (no_valid_key None = true ->
      response_text (prompts None "Estimate the carbon footprint" (scale - 1) (Text ""))
      = Some (toFixed 2 (fallbackEstimate (scale - 1))))
  /\ (no_valid_key None = false ->
      response_text (prompts None "Estimate the carbon footprint" (scale - 1) (Throws ""))
      = Some (toFixed 2 (fallbackEstimate (scale - 1)))).
Proof.
  assert (Hr : is_random (scale - 1))
    by (split; [apply Z.leb_le | apply Z.ltb_lt]; vm_compute; reflexivity).
  assert (Hest : includes "Estimate the carbon footprint" estimate_marker = true)
    by (vm_compute; reflexivity).
  split; [exact Hr |]. split; [exact Hest |].
  exact (estimate_text_shape None "Estimate the carbon footprint" (scale - 1)
           (Text "") "" Hr Hest).
Defined.

(** [/api/health] reports [hasApiKey] exactly when [/api/prompts] would hand
    the prompt to the provider and return its text; the provider client holds
    the placeholder key exactly when [hasApiKey] is false, and the configured
    key otherwise; and the startup warning is written exactly when
    [hasApiKey] is false. *)
Theorem health_agrees_with_prompts key iso :
  let h := health key iso in
  fst h = 200
  /\ h_status (snd h) = "OK"
  /\ h_hasApiKey (snd h) = negb (no_valid_key key)
  /\ (h_hasApiKey (snd h) = true <->
      forall prompt random text,
        prompts key prompt random (Text text)
        = mk_response 200 (VObj [("response", VStr text)]))
  /\ (h_hasApiKey (snd h) = false <-> genAI_key key = placeholder)
  /\ (h_hasApiKey (snd h) = true -> key = Some (genAI_key key))
  /\ warns_at_startup key = negb (h_hasApiKey (snd h)).
Proof.
  cbv zeta. unfold health. cbn [fst snd h_status h_hasApiKey].
  split; [reflexivity |]. split; [reflexivity |].
  assert (Hneg : hasApiKey key = negb (no_valid_key key)).
  { destruct key as [k |]; cbn; [| reflexivity].
    unfold placeholder. rewrite negb_orb. reflexivity. }
  split; [exact Hneg |]. split; [| split; [| split]].
  - rewrite Hneg. split.
    + intros H prompt random text. unfold prompts.
      destruct (no_valid_key key); [discriminate | reflexivity].
    + intros H. specialize (H "" 0 ""). unfold prompts in H.
      destruct (no_valid_key key); [| reflexivity].
      vm_compute in H. discriminate H.
  - destruct key as [k |]; cbn; [| split; reflexivity].
    destruct (String.eqb_spec k "") as [-> | Hne]; cbn; [split; reflexivity |].
    destruct (String.eqb_spec k placeholder) as [-> | Hne']; cbn;
      [split; reflexivity |].
    split; [discriminate | intros H; contradiction].
  - destruct key as [k |]; cbn; [| discriminate].
    destruct (String.eqb_spec k ""); cbn; [discriminate | reflexivity].
  - rewrite Hneg, negb_involutive. destruct key; reflexivity.
Qed.

(** *** How far the estimate is from [5 * random + 0.5] *)

(** The estimate differs from the exact [5 * random + 0.5] by at most
    [2^-50], and the hundredths written differ from it by at most half a
    hundredth more. *)
Theorem estimate_is_close random :
  is_random random ->
  let x := fallbackEstimate random in
  let n := nearest_scaled 2 x in
  let exact := 5 * random + half in
  Z.abs (x - exact) <= two_pow_minus_50
  /\ Z.abs (2 * n * scale - 200 * exact) <= scale + 200 * two_pow_minus_50
  /\ toFixed 2 x = place_point 2 n.
Proof.
  intros Hr. cbv zeta.
  pose proof (fallbackEstimate_close random Hr) as Hx.
  split; [exact Hx |]. split; [| reflexivity].
  pose proof (nearest_scaled_close (fallbackEstimate random)) as Hn. cbv zeta in Hn.
  remember (nearest_scaled 2 (fallbackEstimate random)) as n eqn:En. clear En.
  remember (fallbackEstimate random) as x eqn:Ex. clear Ex.
  remember two_pow_minus_50 as u eqn:Eu. clear Eu.
  remember scale as sc eqn:Es. remember half as h eqn:Eh. clear Es Eh.
  lia.
Qed.

Lemma estimate_is_close_witness :
  is_random (scale / 3)
  /\ let x := fallbackEstimate (scale / 3) in
     let n := nearest_scaled 2 x in
     let exact := 5 * (scale / 3) + half in
     Z.abs (x - exact) <= two_pow_minus_50
     /\ Z.abs (2 * n * scale - 200 * exact) <= scale + 200 * two_pow_minus_50
     /\ toFixed 2 x = place_point 2 n.
Proof.
  assert (Hr : is_random (scale / 3))
    by (split; [apply Z.leb_le | apply Z.ltb_lt]; vm_compute; reflexivity).
  split; [exact Hr |]. exact (estimate_is_close (scale / 3) Hr).
Defined.

End ProxyFacts.
